(** * rislive.py: the RIPE RIS Live streaming client

    A shallow embedding of [rislive.py] (filter validators, the subscription
    payload builder, the streaming coroutine and the run loop of [main]) and
    the properties its specification states about them.

    Conventions of the embedding.
    - A Python [str] is a [string]; a character is the code point of that
      number, so the alphabet of the model is U+0000..U+00FF.
    - A Python list is a [list]; a [dict] is an association list in insertion
      order (what [json.dumps] prints).
    - A validator returns [Ok v] or [ArgumentTypeError msg], the exception
      that [argparse] turns into a usage error.
    - A coroutine is a function of the object's state and of the behaviour of
      the awaited operations; it returns the outcome, the new state and the
      list of operations it performed, in order. A [print] of
      [start_streaming] or of the loop of [main] prints or raises, as the
      connection at hand says.
    - [_get_ris_params] is also written out over a heap of mutable objects
      held by reference (module [Heap]), where what it changes can be
      told from what it leaves alone. *)

From Stdlib Require Import String Ascii List ZArith Lia Bool Arith.
Import ListNotations.
Local Open Scope list_scope.
Local Open Scope string_scope.
Local Open Scope nat_scope.
Set Warnings "-register-all".

(* ================================================================== *)
(** ** Python's built-in string operations *)
(* ================================================================== *)

Module PyStr.

(** [str.isspace] on one character, for code points below 256:
    TAB..CR, FS..US, SPACE, NEL (0x85) and NBSP (0xA0). *)
Definition isspace (c : ascii) : bool :=
  let n := nat_of_ascii c in
  ((9 <=? n) && (n <=? 13)) || ((28 <=? n) && (n <=? 32))
  || (n =? 133) || (n =? 160).

(** [\d] of module [re] on a [str] pattern, and the digits [int] reads:
    below code point 256 these are the ten ASCII digits. *)
Definition isdigit (c : ascii) : bool :=
  let n := nat_of_ascii c in (48 <=? n) && (n <=? 57).

(** [c in chars] for a one-character [c]. *)
Fixpoint contains (c : ascii) (s : string) : bool :=
  match s with
  | EmptyString => false
  | String d r => Ascii.eqb c d || contains c r
  end.

Fixpoint lstrip_by (p : ascii -> bool) (s : string) : string :=
  match s with
  | EmptyString => EmptyString
  | String c r => if p c then lstrip_by p r else s
  end.

Fixpoint rstrip_by (p : ascii -> bool) (s : string) : string :=
  match s with
  | EmptyString => EmptyString
  | String c r =>
      match rstrip_by p r with
      | EmptyString => if p c then EmptyString else String c EmptyString
      | r' => String c r'
      end
  end.

(** [s.strip()]: leading and trailing whitespace removed. *)
Definition strip (s : string) : string :=
  rstrip_by isspace (lstrip_by isspace s).

(** [s.strip(chars)]: every leading and every trailing character that
    occurs in [chars] is removed. *)
Definition strip_chars (chars : string) (s : string) : string :=
  rstrip_by (fun c => contains c chars) (lstrip_by (fun c => contains c chars) s).

(** [s.split(sep)] for a one-character separator: one more piece than
    separators, the empty string gives one empty piece. *)
Fixpoint split (sep : ascii) (s : string) : list string :=
  match s with
  | EmptyString => [EmptyString]
  | String c r =>
      if Ascii.eqb c sep then EmptyString :: split sep r
      else match split sep r with
           | h :: t => String c h :: t
           | [] => [String c EmptyString]
           end
  end.

(** [sep.join(l)]. *)
Fixpoint join (sep : string) (l : list string) : string :=
  match l with
  | [] => EmptyString
  | x :: rest =>
      match rest with
      | [] => x
      | _ :: _ => x ++ sep ++ join sep rest
      end
  end.

(** Truthiness of a [str]. *)
Definition truthy (s : string) : bool :=
  match s with EmptyString => false | String _ _ => true end.

(** [s[0]] on a non-empty [str]: the one-character string. On the empty
    string Python raises [IndexError]: [None]. *)
Definition first_char (s : string) : option string :=
  match s with
  | EmptyString => None
  | String c _ => Some (String c EmptyString)
  end.

End PyStr.

(* ================================================================== *)
(** ** What the interpreter and its standard library provide *)
(* ================================================================== *)

(** The parts of the Python runtime that [rislive.py] calls and that are not
    its own code. The theorems hold for every interpreter and every
    [ipaddress] module. *)

(** The interpreter's limit on the digits of a string that [int] converts. *)
Class Interpreter : Set := {
  (** [sys.get_int_max_str_digits()]; 0 switches the limit off. *)
  int_max_str_digits : nat
}.

(** Module [ipaddress], each parser reduced to "returns" ([true]) or
    "raises ValueError" ([false]). *)
Class Ipaddress : Set := {
  (** [ipaddress.ip_address(s)] returns. *)
  ip_address : string -> bool;
  (** [ipaddress.ip_network(s, strict=False)] returns. *)
  ip_network : string -> bool
}.

Module PyInt.

(** Whitespace that [int(str)] skips at both ends: the C locale's
    [isspace] characters, and the non-ASCII spaces that the conversion to
    ASCII turns into a blank (NEL and NBSP below 256). FS..US are not
    skipped. *)
Definition int_space (c : ascii) : bool :=
  let n := nat_of_ascii c in
  ((9 <=? n) && (n <=? 13)) || (n =? 32) || (n =? 133) || (n =? 160).

Definition digit_value (c : ascii) : Z := Z.of_nat (nat_of_ascii c - 48).

(** The scan over digits and underscores: [prev_us] says that the previous
    character was an underscore. Two underscores in a row and a trailing
    underscore fail. Returns the value, the number of digits and the
    unread rest. *)
Fixpoint scan_digits (s : string) (prev_us : bool) (acc : Z) (digits : nat)
  : option (Z * nat * string) :=
  match s with
  | EmptyString => if prev_us then None else Some (acc, digits, s)
  | String c r =>
      if PyStr.isdigit c
      then scan_digits r false (10 * acc + digit_value c)%Z (S digits)
      else if Ascii.eqb c "_"
           then (if prev_us then None else scan_digits r true acc digits)
           else if prev_us then None else Some (acc, digits, s)
  end.

(** [int(s)] for a [str] and base 10: [Some n] when it returns [n], [None]
    when it raises [ValueError]. *)
Definition int {py : Interpreter} (s : string) : option Z :=
  let s1 := PyStr.lstrip_by int_space s in
  let '(negative, s2) :=
    match s1 with
    | String c r =>
        if Ascii.eqb c "+" then (false, r)
        else if Ascii.eqb c "-" then (true, r)
        else (false, s1)
    | EmptyString => (false, s1)
    end in
  match s2 with
  | String c _ =>
      if Ascii.eqb c "_" then None
      else
        match scan_digits s2 false 0%Z 0 with
        | None => None
        | Some (n, digits, rest) =>
            if digits =? 0 then None
            else if (640 <? digits) && (0 <? int_max_str_digits)
                    && (int_max_str_digits <? digits) then None
            else
              match PyStr.lstrip_by int_space rest with
              | EmptyString => Some (if negative then (- n)%Z else n)
              | String _ _ => None
              end
        end
  | EmptyString => None
  end.

End PyInt.

(* ================================================================== *)
(** ** The filter validators *)
(* ================================================================== *)

Inductive result (A : Type) : Type :=
| Ok (a : A)
| ArgumentTypeError (msg : string).
Arguments Ok {A} a.
Arguments ArgumentTypeError {A} msg.

(** [re.match(r"^rrc\d{2}$", rrc)] is not [None]. In Python [$] matches at
    the end of the string and also just before a newline that ends it. *)
Definition re_match_rrc (rrc : string) : bool :=
  match rrc with
  | String a (String b (String c (String d1 (String d2 rest)))) =>
      Ascii.eqb a "r" && Ascii.eqb b "r" && Ascii.eqb c "c"
      && PyStr.isdigit d1 && PyStr.isdigit d2
      && match rest with
         | EmptyString => true
         | String nl EmptyString => Ascii.eqb nl "010"
         | _ => false
         end
  | _ => false
  end.

Definition rrc_message (rrc : string) : string :=
  "Invalid RRC format '" ++ rrc ++ "'. Must be in format 'rrcXX' where X is a digit".

(** The [for] loop of [validate_rrc]: raises at the first token that does
    not match. *)
Fixpoint validate_rrc_loop (rrc_list : list string) : result unit :=
  match rrc_list with
  | [] => Ok tt
  | rrc :: rest =>
      if negb (re_match_rrc rrc) then ArgumentTypeError (rrc_message rrc)
      else validate_rrc_loop rest
  end.

Definition validate_rrc (value : string) : result (list string) :=
  let rrc_list := map PyStr.strip (PyStr.split "," value) in
  match validate_rrc_loop rrc_list with
  | Ok _ => Ok rrc_list
  | ArgumentTypeError msg => ArgumentTypeError msg
  end.

Section Validators.
Context {py : Interpreter} {ipaddress : Ipaddress}.

Definition validate_peer (value : string) : result string :=
  if ip_address value then Ok value
  else ArgumentTypeError "Invalid IP address format".

(** The inner [for asn in clean_path.split(",")] of [validate_aspath]:
    [true] when it runs to its end, [false] when [ValueError] is raised,
    by [int] or by the range test. *)
Fixpoint validate_aspath_asns (asns : list string) : bool :=
  match asns with
  | [] => true
  | asn :: rest =>
      if PyStr.truthy asn then
        match PyInt.int asn with
        | None => false
        | Some asn_int =>
            if negb ((0 <=? asn_int)%Z && (asn_int <=? 4294967295)%Z) then false
            else validate_aspath_asns rest
        end
      else validate_aspath_asns rest
  end.

Definition aspath_message (path : string) : string :=
  "Invalid AS path format in '" ++ path ++ "'. Must be comma-separated ASNs".

Fixpoint validate_aspath_loop (path_list validated_paths : list string)
  : result (list string) :=
  match path_list with
  | [] => Ok validated_paths
  | path :: rest =>
      let clean_path := PyStr.strip_chars "^$" path in
      if validate_aspath_asns (PyStr.split "," clean_path)
      then validate_aspath_loop rest (validated_paths ++ [path])%list
      else ArgumentTypeError (aspath_message path)
  end.

Definition validate_aspath (value : string) : result (list string) :=
  let path_list := map PyStr.strip (PyStr.split "," value) in
  validate_aspath_loop path_list [].

Definition prefix_mask_message (prefix : string) : string :=
  "Network prefix '" ++ prefix
  ++ "' must include mask in CIDR notation (e.g. 192.0.2.0/24 or 2001:db8::/32)".

Definition prefix_format_message (prefix : string) : string :=
  "Invalid network prefix format: " ++ prefix.

Fixpoint validate_prefix_loop (prefix_list validated_prefixes : list string)
  : result (list string) :=
  match prefix_list with
  | [] => Ok validated_prefixes
  | prefix :: rest =>
      if negb (PyStr.contains "/" prefix)
      then ArgumentTypeError (prefix_mask_message prefix)
      else if ip_network prefix
           then validate_prefix_loop rest (validated_prefixes ++ [prefix])%list
           else ArgumentTypeError (prefix_format_message prefix)
  end.

Definition validate_prefix (value : string) : result (list string) :=
  let prefix_list := map PyStr.strip (PyStr.split "," value) in
  validate_prefix_loop prefix_list [].

End Validators.

(* ================================================================== *)
(** ** [json.dumps] *)
(* ================================================================== *)

Module Json.

(** The Python values that [rislive.py] hands to [json.dumps]. *)
Inductive value : Type :=
| Null
| Bool (b : bool)
| Str (s : string)
| List (items : list value)
| Dict (items : list (string * value)).

Definition hex_digit (n : nat) : ascii :=
  if n <? 10 then ascii_of_nat (48 + n) else ascii_of_nat (87 + n).

Definition backslash : ascii := "092"%char.
Definition dquote : ascii := "034"%char.

(** One character under [ensure_ascii=True]: the two-character escapes of
    [ESCAPE_DCT], [\u00xx] for every other character outside SPACE..~. *)
Definition escape_char (c : ascii) : string :=
  let n := nat_of_ascii c in
  if n =? 34 then String backslash (String dquote EmptyString)
  else if n =? 92 then String backslash (String backslash EmptyString)
  else if n =? 8 then String backslash "b"
  else if n =? 12 then String backslash "f"
  else if n =? 10 then String backslash "n"
  else if n =? 13 then String backslash "r"
  else if n =? 9 then String backslash "t"
  else if (32 <=? n) && (n <=? 126) then String c EmptyString
  else String backslash
         (String "u" (String "0" (String "0"
            (String (hex_digit (n / 16)) (String (hex_digit (n mod 16)) EmptyString))))).

Fixpoint escape (s : string) : string :=
  match s with
  | EmptyString => EmptyString
  | String c r => escape_char c ++ escape r
  end.

Definition quote (s : string) : string :=
  String dquote (escape s ++ String dquote EmptyString).

(** [json.dumps(v)] with the default separators [", "] and [": "]. *)
Fixpoint dumps (v : value) : string :=
  match v with
  | Null => "null"
  | Bool b => if b then "true" else "false"
  | Str s => quote s
  | List items => "[" ++ PyStr.join ", " (map dumps items) ++ "]"
  | Dict items =>
      "{" ++ PyStr.join ", "
               (map (fun kv => match kv with
                               | (k, x) => quote k ++ ": " ++ dumps x
                               end) items) ++ "}"
  end.

End Json.

(* ================================================================== *)
(** ** Python dictionaries (insertion ordered) *)
(* ================================================================== *)

Module PyDict.
Section Dict.
Context {V : Type}.

Definition dict := list (string * V).

(** [d.get(k)]. *)
Fixpoint get (k : string) (d : dict) : option V :=
  match d with
  | [] => None
  | (k', v) :: rest => if String.eqb k k' then Some v else get k rest
  end.

(** [k in d]. *)
Definition mem (k : string) (d : dict) : bool :=
  match get k d with Some _ => true | None => false end.

(** [d[k] = v]: an existing key keeps its place, a new one goes last. *)
Fixpoint set (k : string) (v : V) (d : dict) : dict :=
  match d with
  | [] => [(k, v)]
  | (k', v') :: rest =>
      if String.eqb k k' then (k', v) :: rest else (k', v') :: set k v rest
  end.

(** [d.update(other)]. *)
Definition update (d other : dict) : dict :=
  fold_left (fun acc kv => set (fst kv) (snd kv) acc) other d.

(** A dictionary display [{k1: v1, ...}]. *)
Definition literal (items : list (string * V)) : dict := update [] items.
End Dict.
Arguments dict V : clear implicits.
End PyDict.

(* ================================================================== *)
(** ** The streamer object *)
(* ================================================================== *)

(** [args], the [argparse.Namespace] that [parser.parse_args()] returns. An
    option that was not given is [None]; the [store_true] flags are
    booleans. *)
Record Namespace : Set := {
  filter_host : option (list string);
  filter_type : option string;
  filter_key : option string;
  filter_peer : option string;
  filter_aspath : option (list string);
  filter_prefix : option (list string);
  more_specific : bool;
  less_specific : bool;
  include_raw : bool;
  disable_auto_reconnect : bool;
  debug : bool
}.

(** [ssl.CERT_NONE], [ssl.CERT_OPTIONAL], [ssl.CERT_REQUIRED]. *)
Inductive VerifyMode : Set := CERT_NONE | CERT_OPTIONAL | CERT_REQUIRED.

Record SSLContext : Set := {
  check_hostname : bool;
  verify_mode : VerifyMode
}.

(** A websocket connection is named by a number. *)
Definition WebSocket : Set := nat.

Record RipeRisStreamer : Set := {
  _options : Namespace;
  _ws : option WebSocket;
  _sslcontext : SSLContext
}.

(** [RipeRisStreamer(options)]: [ssl.create_default_context()] and then the
    two assignments that switch verification off. *)
Definition __init__ (options : Namespace) : RipeRisStreamer :=
  {| _options := options;
     _ws := None;
     _sslcontext := {| check_hostname := false; verify_mode := CERT_NONE |} |}.

(** The dictionary display [optional_params] of [_get_ris_params]; [Null]
    is [None]. [x[0] if x else None] is [None] when [x] is [None] or empty
    (an empty list, an empty string) and the first element of [x]
    otherwise: the first string of a list, the first character of a
    string. *)
Definition optional_params (o : Namespace) : PyDict.dict Json.value :=
  PyDict.literal
    [ ("host",
       match filter_host o with
       | Some (first :: _) => Json.Str first
       | _ => Json.Null
       end);
      ("type",
       match filter_type o with
       | Some t => Json.Str t
       | None => Json.Null
       end);
      ("require",
       match filter_key o with
       | Some key =>
           match PyStr.first_char key with
           | Some first => Json.Str first
           | None => Json.Null
           end
       | None => Json.Null
       end);
      ("peer",
       match filter_peer o with
       | Some p => Json.Str p
       | None => Json.Null
       end);
      ("path",
       match filter_aspath o with
       | Some (x :: l) => Json.Str (PyStr.join "," (x :: l))
       | _ => Json.Null
       end);
      ("prefix",
       match filter_prefix o with
       | Some (x :: l) => Json.List (map Json.Str (x :: l))
       | _ => Json.Null
       end) ].

Definition is_not_None (v : Json.value) : bool :=
  match v with
  | Json.Null => false
  | _ => true
  end.

(** The dictionary [params] after [params.update(...)]. *)
Definition ris_params (o : Namespace) : PyDict.dict Json.value :=
  let params :=
    PyDict.literal
      [ ("socketOptions",
         Json.Dict (PyDict.literal [("includeRaw", Json.Bool (include_raw o))]));
        ("moreSpecific", Json.Bool (more_specific o));
        ("lessSpecific", Json.Bool (less_specific o));
        ("autoReconnect", Json.Bool (negb (disable_auto_reconnect o))) ] in
  PyDict.update params
    (filter (fun kv => is_not_None (snd kv)) (optional_params o)).

(** The object that [_get_ris_params] serialises. *)
Definition ris_subscribe (o : Namespace) : Json.value :=
  Json.Dict (PyDict.literal
               [ ("type", Json.Str "ris_subscribe");
                 ("data", Json.Dict (ris_params o)) ]).

(* ================================================================== *)
(** ** Coroutines: state, exceptions and the operations performed *)
(* ================================================================== *)

(** The exceptions that the handlers of [rislive.py] tell apart. *)
Inductive exc : Set :=
| CancelledError
| ConnectionError (msg : string)
| ValueError (msg : string)
| OtherException (name : string).

Inductive outcome (A : Type) : Type :=
| Return (a : A)
| Raise (e : exc).
Arguments Return {A} a.
Arguments Raise {A} e.

(** What a coroutine does to the outside world. *)
Inductive event : Set :=
| Log (format : string) (args : list string)   (* logging.debug *)
| Print (text : string)                        (* print *)
| Connect (uri : string) (ssl : SSLContext)    (* connect(uri, ssl=...) is entered *)
| Opened (ws : WebSocket)                      (* the connection is open *)
| Send (ws : WebSocket) (payload : string)     (* websocket.send *)
| Recv (ws : WebSocket) (message : string)     (* the iterator yields a message *)
| Close (ws : WebSocket)                       (* the connection is closed *)
| CancelTask.                                  (* task.cancel() on another task *)

Definition Coro (A : Type) : Type :=
  RipeRisStreamer -> outcome A * RipeRisStreamer * list event.

Definition ret {A : Type} (a : A) : Coro A :=
  fun self => (Return a, self, []).

Definition raise {A : Type} (e : exc) : Coro A :=
  fun self => (Raise e, self, []).

Definition bind {A B : Type} (m : Coro A) (k : A -> Coro B) : Coro B :=
  fun self =>
    match m self with
    | (Return a, self1, t1) =>
        match k a self1 with
        | (r, self2, t2) => (r, self2, (t1 ++ t2)%list)
        end
    | (Raise e, self1, t1) => (Raise e, self1, t1)
    end.

(** [try: body finally: exit], where [exit] does not raise: the exit of an
    [async with] block. *)
Definition finally {A : Type} (body : Coro A) (exit : Coro unit) : Coro A :=
  fun self =>
    match body self with
    | (r, self1, t1) =>
        match exit self1 with
        | (_, self2, t2) => (r, self2, (t1 ++ t2)%list)
        end
    end.

Definition emit (e : event) : Coro unit :=
  fun self => (Return tt, self, [e]).

Definition get_self : Coro RipeRisStreamer :=
  fun self => (Return self, self, []).

Definition set_ws (ws : option WebSocket) : Coro unit :=
  fun self =>
    (Return tt,
     {| _options := _options self; _ws := ws; _sslcontext := _sslcontext self |},
     []).

(** An awaited operation of the websocket library: it returns, or raises. *)
Definition await (r : option exc) : Coro unit :=
  match r with
  | None => ret tt
  | Some e => raise e
  end.

Declare Scope coro_scope.
Delimit Scope coro_scope with coro.
Notation "x <- m ;; k" := (bind m (fun x => k))
  (at level 61, m at next level, right associativity) : coro_scope.
Notation "m ;; k" := (bind m (fun _ => k))
  (at level 61, right associativity) : coro_scope.
Local Open Scope coro_scope.

(** One message that arrives, and how the [print] calls that handle it
    end: [None] when the call prints and returns, [Some e] when it raises
    [e] (a closed or broken output stream, a character that the stream's
    encoding does not have). *)
Record arrival : Set := {
  message : string;
  (** [print(message)] *)
  print_result : option exc;
  (** the [print] of the handler, when [print(message)] raised a
      [ValueError] *)
  handler_print_result : option exc
}.

(** How one connection behaves: the part of a run that the program does not
    decide. *)
Record connection : Set := {
  (** the name of the websocket that [connect] yields *)
  conn_ws : WebSocket;
  (** [None]: the opening handshake succeeds; [Some e]: [connect] raises *)
  connect_result : option exc;
  (** the same for [websocket.send] *)
  send_result : option exc;
  (** the same for [print("Listening...")] *)
  listening_print : option exc;
  (** the messages that arrive, in order *)
  incoming : list arrival;
  (** [None]: the iterator ends (the connection was closed normally);
      [Some e]: it raises *)
  stream_end : option exc;
  (** the same as [listening_print] for the [print] in the handler of
      [main], when the call of [start_streaming] ends with a
      [ConnectionError] *)
  error_print : option exc
}.

(** [print(text)]: the line is printed, or the call raises. *)
Definition print (text : string) (result : option exc) : Coro unit :=
  match result with
  | None => emit (Print text)
  | Some e => raise e
  end.

(** [try: body except ValueError as e: handler(str(e))]. Any other
    exception of [body], and any exception of the handler, goes on. *)
Definition except_ValueError (body : Coro unit) (handler : string -> Coro unit)
  : Coro unit :=
  fun self =>
    match body self with
    | (Raise (ValueError e), self1, t1) =>
        match handler e self1 with
        | (r, self2, t2) => (r, self2, (t1 ++ t2)%list)
        end
    | other => other
    end.

Definition uri : string := "wss://ris-live.ripe.net/v1/ws/?client=RipeRisStreamer".

Definition _get_ris_params : Coro string :=
  self <- get_self ;;
  ret (Json.dumps (ris_subscribe (_options self))).

(** The loop [async for message in websocket]: an exception that the body
    does not handle ends the loop and goes on. *)
Fixpoint reception_loop (ws : WebSocket) (arrivals : list arrival) : Coro unit :=
  match arrivals with
  | [] => ret tt
  | a :: rest =>
      emit (Recv ws (message a)) ;;
      except_ValueError
        (print (message a) (print_result a))
        (fun e => print ("Error processing message: " ++ e) (handler_print_result a)) ;;
      reception_loop ws rest
  end.

(** [start_streaming] on the connection [c]. The second [logging.debug]
    is given the one-element set [{self._get_ris_params()}]; the event
    records the element. *)
Definition start_streaming (c : connection) : Coro unit :=
  emit (Log "Creating websocket connection..." []) ;;
  self <- get_self ;;
  emit (Connect uri (_sslcontext self)) ;;
  await (connect_result c) ;;
  emit (Opened (conn_ws c)) ;;
  finally
    (let websocket := conn_ws c in
     set_ws (Some websocket) ;;
     emit (Log "Sending RIS parameters..." []) ;;
     logged <- _get_ris_params ;;
     emit (Log "RIS parameters: %s " [logged]) ;;
     payload <- _get_ris_params ;;
     emit (Send websocket payload) ;;
     await (send_result c) ;;
     print "Listening..." (listening_print c) ;;
     emit (Log "Starting the reception loop..." []) ;;
     reception_loop websocket (incoming c) ;;
     await (stream_end c))
    (emit (Close (conn_ws c))).

(** [disconnect]; [close_result] is how [self._ws.close()] ends when it is
    called. *)
Definition disconnect (close_result : option exc) : Coro bool :=
  self <- get_self ;;
  match _ws self with
  | Some ws => emit (Close ws) ;; await close_result
  | None => ret tt
  end ;;
  ret true.

(** [handle_shutdown]; [others] is the number of tasks of the loop besides
    the current one. *)
Definition handle_shutdown (close_result : option exc) (others : nat) : Coro unit :=
  (fun self =>
     match (emit (Print "Disconnecting...") ;; disconnect close_result) self with
     | (Raise (ConnectionError e), self1, t) =>
         (Return tt, self1, (t ++ [Print ("Error during disconnect: " ++ e)])%list)
     | (Raise e, self1, t) => (Raise e, self1, t)
     | (Return _, self1, t) => (Return tt, self1, t)
     end) ;;
  emit (Print "Shutting down...") ;;
  fun self => (Return tt, self, repeat CancelTask others).

(** How the run loop of [main] ends. *)
Inductive run_result : Set :=
| Exited                (* the loop is left and [main] returns *)
| Propagated (e : exc)  (* an exception leaves [main] *)
| Running.              (* the loop asks for one more connection *)

(** The loop [while not args.disable_auto_reconnect] of [main], over the
    connections that the network offers, in order. An exception that the
    [print] of the [ConnectionError] handler raises is outside the inner
    [try]: the outer one lets [main] return on [CancelledError] and lets
    every other exception go on. *)
Fixpoint main_loop (connections : list connection) (streamer : RipeRisStreamer)
  : run_result * RipeRisStreamer * list event :=
  if negb (disable_auto_reconnect (_options streamer)) then
    match connections with
    | [] => (Running, streamer, [])
    | c :: rest =>
        match start_streaming c streamer with
        | (Raise CancelledError, streamer1, t) => (Exited, streamer1, t)
        | (Raise (ConnectionError e), streamer1, t) =>
            match error_print c with
            | None =>
                match main_loop rest streamer1 with
                | (r, streamer2, t2) =>
                    (r, streamer2,
                     (t ++ Print ("Streamer encountered an error: " ++ e) :: t2)%list)
                end
            | Some CancelledError => (Exited, streamer1, t)
            | Some e2 => (Propagated e2, streamer1, t)
            end
        | (Raise e, streamer1, t) => (Propagated e, streamer1, t)
        | (Return _, streamer1, t) =>
            match main_loop rest streamer1 with
            | (r, streamer2, t2) => (r, streamer2, (t ++ t2)%list)
            end
        end
    end
  else (Exited, streamer, []).

(** [main] after [parser.parse_args()] returned [args]. *)
Definition main (args : Namespace) (connections : list connection)
  : run_result * RipeRisStreamer * list event :=
  main_loop connections (__init__ args).

(* ================================================================== *)
(** ** [_get_ris_params] on the interpreter's heap *)
(* ================================================================== *)

(** [sys.getrecursionlimit()], which bounds the nesting that [json.dumps]
    follows. *)
Class Recursion : Set := {
  recursion_limit : nat
}.

(** The dictionaries and lists of [_get_ris_params] are mutable objects
    that names and other objects hold by reference: [params] is updated in
    place, and the list under "prefix" is the very list of the namespace.
    Here the method is written out statement by statement over a heap of
    such objects; [None] stands for an exception of the interpreter
    ([AttributeError], [TypeError], [IndexError], [RecursionError]). *)
Module Heap.

Definition loc : Set := nat.

Inductive pyval : Set :=
| VNone
| VBool (b : bool)
| VStr (s : string)
| VRef (l : loc).

Inductive object : Set :=
| OList (items : list pyval)
| ODict (items : list (string * pyval))
| OInstance (attributes : list (string * pyval)).

Definition heap : Set := list object.

Definition read (h : heap) (l : loc) : option object := nth_error h l.

Fixpoint write (h : heap) (l : loc) (o : object) : heap :=
  match h, l with
  | [], _ => []
  | _ :: rest, O => o :: rest
  | x :: rest, S l' => x :: write rest l' o
  end.

Definition Py (A : Type) : Type := heap -> option (A * heap).

Definition ret {A : Type} (a : A) : Py A := fun h => Some (a, h).

Definition fail {A : Type} : Py A := fun _ => None.

Definition bind {A B : Type} (m : Py A) (k : A -> Py B) : Py B :=
  fun h =>
    match m h with
    | Some (a, h1) => k a h1
    | None => None
    end.

Declare Scope py_scope.
Delimit Scope py_scope with py.
Notation "x <- m ;; k" := (bind m (fun x => k))
  (at level 61, m at next level, right associativity) : py_scope.
Notation "m ;; k" := (bind m (fun _ => k))
  (at level 61, right associativity) : py_scope.
Local Open Scope py_scope.

(** A new object: a display [{...}], a comprehension. *)
Definition alloc (o : object) : Py pyval :=
  fun h => Some (VRef (length h), (h ++ [o])%list).

(** The object that a value refers to. *)
Definition load (v : pyval) : Py object :=
  fun h =>
    match v with
    | VRef l =>
        match read h l with
        | Some o => Some (o, h)
        | None => None
        end
    | _ => None
    end.

(** The object that a value refers to is replaced: a mutation in place. *)
Definition store (v : pyval) (o : object) : Py unit :=
  fun h =>
    match v with
    | VRef l => Some (tt, write h l o)
    | _ => None
    end.

(** [v.name] *)
Definition getattr (v : pyval) (name : string) : Py pyval :=
  o <- load v ;;
  match o with
  | OInstance attributes =>
      match PyDict.get name attributes with
      | Some x => ret x
      | None => fail
      end
  | _ => fail
  end.

(** [bool(v)], the truth value that [if], [not] and the conditional
    expression test. *)
Definition truth (v : pyval) : Py bool :=
  match v with
  | VNone => ret false
  | VBool b => ret b
  | VStr s => ret (PyStr.truthy s)
  | VRef _ =>
      o <- load v ;;
      ret match o with
          | OList [] | ODict [] => false
          | _ => true
          end
  end.

(** [v[0]] *)
Definition subscript0 (v : pyval) : Py pyval :=
  match v with
  | VStr s =>
      match PyStr.first_char s with
      | Some c => ret (VStr c)
      | None => fail
      end
  | VRef _ =>
      o <- load v ;;
      match o with
      | OList (x :: _) => ret x
      | _ => fail
      end
  | _ => fail
  end.

Fixpoint traverse {A B : Type} (f : A -> option B) (l : list A) : option (list B) :=
  match l with
  | [] => Some []
  | x :: rest =>
      match f x, traverse f rest with
      | Some y, Some ys => Some (y :: ys)
      | _, _ => None
      end
  end.

Definition as_str (v : pyval) : option string :=
  match v with
  | VStr s => Some s
  | _ => None
  end.

Fixpoint characters (s : string) : list string :=
  match s with
  | EmptyString => []
  | String c r => String c EmptyString :: characters r
  end.

(** [sep.join(v)]: the items of a list, the keys of a dictionary or the
    characters of a string, all of which have to be strings. *)
Definition join (sep : string) (v : pyval) : Py pyval :=
  match v with
  | VStr s => ret (VStr (PyStr.join sep (characters s)))
  | VRef _ =>
      o <- load v ;;
      match o with
      | OList items =>
          match traverse as_str items with
          | Some l => ret (VStr (PyStr.join sep l))
          | None => fail
          end
      | ODict items => ret (VStr (PyStr.join sep (map fst items)))
      | OInstance _ => fail
      end
  | _ => fail
  end.

(** A dictionary display [{k1: v1, ...}] of values already computed. *)
Definition dict_display (items : list (string * pyval)) : Py pyval :=
  alloc (ODict (PyDict.literal items)).

Definition is_not_None (v : pyval) : bool :=
  match v with
  | VNone => false
  | _ => true
  end.

(** [{k: v for k, v in d.items() if v is not None}] *)
Definition without_None (d : pyval) : Py pyval :=
  o <- load d ;;
  match o with
  | ODict items =>
      alloc (ODict (PyDict.literal (filter (fun kv => is_not_None (snd kv)) items)))
  | _ => fail
  end.

(** [target.update(other)]: [target] is changed in place. *)
Definition update (target other : pyval) : Py unit :=
  t <- load target ;;
  o <- load other ;;
  match t, o with
  | ODict items, ODict others => store target (ODict (PyDict.update items others))
  | _, _ => fail
  end.

(** The JSON value that [json.dumps] finds when it follows the references
    of [v], as deep as [depth] allows. An instance is not serializable. *)
Fixpoint unfolding (depth : nat) (h : heap) (v : pyval) : option Json.value :=
  match v with
  | VNone => Some Json.Null
  | VBool b => Some (Json.Bool b)
  | VStr s => Some (Json.Str s)
  | VRef l =>
      match depth with
      | O => None
      | S d =>
          match read h l with
          | Some (OList items) => option_map Json.List (traverse (unfolding d h) items)
          | Some (ODict items) =>
              option_map Json.Dict
                (traverse (fun kv => option_map (pair (fst kv)) (unfolding d h (snd kv)))
                          items)
          | _ => None
          end
      end
  end.

Section Interpreted.
Context {limits : Recursion}.

(** [json.dumps(v)] *)
Definition dumps (v : pyval) : Py string :=
  fun h =>
    match unfolding recursion_limit h v with
    | Some j => Some (Json.dumps j, h)
    | None => None
    end.

(** [self._options.name] *)
Definition option_attr (self : pyval) (name : string) : Py pyval :=
  options <- getattr self "_options" ;;
  getattr options name.

(** [a if c else b] *)
Definition conditional {A : Type} (c : Py pyval) (a b : Py A) : Py A :=
  v <- c ;;
  t <- truth v ;;
  if t then a else b.

Definition _get_ris_params (self : pyval) : Py string :=
  include_raw <- (v <- option_attr self "include_raw" ;; truth v) ;;
  socketOptions <- dict_display [("includeRaw", VBool include_raw)] ;;
  more_specific <- (v <- option_attr self "more_specific" ;; truth v) ;;
  less_specific <- (v <- option_attr self "less_specific" ;; truth v) ;;
  autoReconnect <- (v <- option_attr self "disable_auto_reconnect" ;;
                    t <- truth v ;;
                    ret (negb t)) ;;
  params <- dict_display [ ("socketOptions", socketOptions);
                           ("moreSpecific", VBool more_specific);
                           ("lessSpecific", VBool less_specific);
                           ("autoReconnect", VBool autoReconnect) ] ;;
  host <- conditional (option_attr self "filter_host")
                      (x <- option_attr self "filter_host" ;; subscript0 x)
                      (ret VNone) ;;
  type <- option_attr self "filter_type" ;;
  require <- conditional (option_attr self "filter_key")
                         (x <- option_attr self "filter_key" ;; subscript0 x)
                         (ret VNone) ;;
  peer <- option_attr self "filter_peer" ;;
  path <- conditional (option_attr self "filter_aspath")
                      (x <- option_attr self "filter_aspath" ;; join "," x)
                      (ret VNone) ;;
  prefix <- conditional (option_attr self "filter_prefix")
                        (option_attr self "filter_prefix")
                        (ret VNone) ;;
  optional_params <- dict_display [ ("host", host); ("type", type);
                                    ("require", require); ("peer", peer);
                                    ("path", path); ("prefix", prefix) ] ;;
  given <- without_None optional_params ;;
  update params given ;;
  subscription <- dict_display [("type", VStr "ris_subscribe"); ("data", params)] ;;
  dumps subscription.

(** [n] calls of [self._get_ris_params()] in a row, with their results. *)
Fixpoint build_times (n : nat) (self : pyval) : Py (list string) :=
  match n with
  | O => ret []
  | S m =>
      payload <- _get_ris_params self ;;
      others <- build_times m self ;;
      ret (payload :: others)
  end.

End Interpreted.

(** An optional string of the namespace, as a value. *)
Definition str_or_None (x : option string) : pyval :=
  match x with
  | Some s => VStr s
  | None => VNone
  end.

(** [v] is an optional list of strings of the namespace: [None], or a
    reference to a list object that holds the strings. *)
Definition list_or_None (h : heap) (x : option (list string)) (v : pyval) : Prop :=
  match x with
  | None => v = VNone
  | Some l => exists at_list, v = VRef at_list /\ read h at_list = Some (OList (map VStr l))
  end.

(** The values of the conditional expressions of [optional_params]. *)
Definition first_item (x : option (list string)) : pyval :=
  match x with
  | Some (first :: _) => VStr first
  | _ => VNone
  end.

Definition first_character (x : option string) : pyval :=
  match x with
  | Some key =>
      match PyStr.first_char key with
      | Some first => VStr first
      | None => VNone
      end
  | None => VNone
  end.

Definition joined (x : option (list string)) : pyval :=
  match x with
  | Some (a :: l) => VStr (PyStr.join "," (a :: l))
  | _ => VNone
  end.

Definition unless_empty (x : option (list string)) (v : pyval) : pyval :=
  match x with
  | Some (_ :: _) => v
  | _ => VNone
  end.

(** The items of a dictionary on the heap unfold, key by key, to the
    items of a JSON object. *)
Definition represented (depth : nat) (h : heap) (items : list (string * pyval))
           (members : list (string * Json.value)) : Prop :=
  Forall2 (fun kv member => fst kv = fst member
                            /\ unfolding depth h (snd kv) = Some (snd member))
          items members.

(** The instance at [o] is the namespace [args]. *)
Definition namespace_at (h : heap) (o : loc) (args : Namespace) : Prop :=
  exists attributes,
    read h o = Some (OInstance attributes)
    /\ (exists v, PyDict.get "filter_host" attributes = Some v
                  /\ list_or_None h (filter_host args) v)
    /\ PyDict.get "filter_type" attributes = Some (str_or_None (filter_type args))
    /\ PyDict.get "filter_key" attributes = Some (str_or_None (filter_key args))
    /\ PyDict.get "filter_peer" attributes = Some (str_or_None (filter_peer args))
    /\ (exists v, PyDict.get "filter_aspath" attributes = Some v
                  /\ list_or_None h (filter_aspath args) v)
    /\ (exists v, PyDict.get "filter_prefix" attributes = Some v
                  /\ list_or_None h (filter_prefix args) v)
    /\ PyDict.get "more_specific" attributes = Some (VBool (more_specific args))
    /\ PyDict.get "less_specific" attributes = Some (VBool (less_specific args))
    /\ PyDict.get "include_raw" attributes = Some (VBool (include_raw args))
    /\ PyDict.get "disable_auto_reconnect" attributes
       = Some (VBool (disable_auto_reconnect args)).

(** The instance at [self] is a streamer whose [_options] is the namespace
    [args]. *)
Definition reflects (h : heap) (self : loc) (args : Namespace) : Prop :=
  exists attributes o,
    read h self = Some (OInstance attributes)
    /\ PyDict.get "_options" attributes = Some (VRef o)
    /\ namespace_at h o args.

(** The streamer of [-H rrc01,rrc02 -p 192.0.2.1 -f 203.0.113.0/24] at
    location 0, with the part of the heap that the builder can reach. *)
Definition round_trip_heap : heap :=
  [ OInstance [("_options", VRef 1); ("_ws", VNone)];
    OInstance [ ("filter_host", VRef 2); ("filter_type", VNone);
                ("filter_key", VNone); ("filter_peer", VStr "192.0.2.1");
                ("filter_aspath", VNone); ("filter_prefix", VRef 3);
                ("more_specific", VBool false); ("less_specific", VBool false);
                ("include_raw", VBool false);
                ("disable_auto_reconnect", VBool false); ("debug", VBool false) ];
    OList [VStr "rrc01"; VStr "rrc02"];
    OList [VStr "203.0.113.0/24"] ].

End Heap.

(** CPython's default recursion limit. *)
Definition cpython_recursion : Recursion := {| recursion_limit := 1000 |}.

(* ================================================================== *)
(** ** Notions used to state the properties *)
(* ================================================================== *)

(** The tokens of a comma-separated argument: split, then trimmed. *)
Definition tokens (value : string) : list string :=
  map PyStr.strip (PyStr.split "," value).

Fixpoint string_forallb (p : ascii -> bool) (s : string) : bool :=
  match s with
  | EmptyString => true
  | String c r => p c && string_forallb p r
  end.

(** A collector identifier: "rrc" and exactly two digits, nothing else. *)
Definition is_rrcNN (t : string) : Prop :=
  exists d1 d2,
    PyStr.isdigit d1 = true /\ PyStr.isdigit d2 = true
    /\ t = String "r" (String "r" (String "c" (String d1 (String d2 EmptyString)))).

(** An AS-path expression that passes: what is left of it between the
    anchor characters is empty or an integer in range. *)
Definition aspath_accepted {py : Interpreter} (path : string) : Prop :=
  let clean_path := PyStr.strip_chars "^$" path in
  clean_path = EmptyString
  \/ exists n, PyInt.int clean_path = Some n /\ (0 <= n <= 4294967295)%Z.

(** The expression is made of anchor characters only (or is empty). *)
Definition anchors_only (path : string) : bool :=
  string_forallb (fun c => PyStr.contains c "^$") path.

(** The expression contains no digit. *)
Definition no_digits (path : string) : bool :=
  string_forallb (fun c => negb (PyStr.isdigit c)) path.

(** The removal of anchors as the specification words it: one leading "^"
    and one trailing "$", and nothing else. *)
Fixpoint spec_drop_trailing (a : ascii) (s : string) : string :=
  match s with
  | EmptyString => EmptyString
  | String c r =>
      match r with
      | EmptyString => if Ascii.eqb c a then EmptyString else s
      | String _ _ => String c (spec_drop_trailing a r)
      end
  end.

Definition spec_strip_anchors (path : string) : string :=
  spec_drop_trailing "$"
    match path with
    | String c r => if Ascii.eqb c "^" then r else path
    | EmptyString => path
    end.

(** The acceptance of one expression as the specification words it. *)
Definition spec_aspath_accepted {py : Interpreter} (path : string) : bool :=
  validate_aspath_asns (PyStr.split "," (spec_strip_anchors path)).

(** The number that a string of decimal digits writes. *)
Fixpoint decimal (acc : Z) (digits : string) : Z :=
  match digits with
  | EmptyString => acc
  | String c r => decimal (10 * acc + PyInt.digit_value c)%Z r
  end.

(** A token that the prefix validator lets pass. *)
Definition prefix_accepted {ipaddress : Ipaddress} (prefix : string) : Prop :=
  PyStr.contains "/" prefix = true /\ ip_network prefix = true.

Definition type_choices : list string :=
  ["UPDATE"; "OPEN"; "NOTIFICATION"; "KEEPALIVE"; "RIS_PEER_STATE"].

Definition key_choices : list string := ["announcements"; "withdrawals"].

(** The namespaces that [parser.parse_args()] can return: every option that
    was given went through its [type] function or its [choices]. *)
Record from_command_line {py : Interpreter} {ipaddress : Ipaddress}
  (args : Namespace) : Prop := {
  host_parsed : forall l, filter_host args = Some l ->
                          exists value, validate_rrc value = Ok l;
  type_parsed : forall t, filter_type args = Some t -> In t type_choices;
  key_parsed : forall k, filter_key args = Some k -> In k key_choices;
  peer_parsed : forall p, filter_peer args = Some p -> validate_peer p = Ok p;
  aspath_parsed : forall l, filter_aspath args = Some l ->
                            exists value, validate_aspath value = Ok l;
  prefix_parsed : forall l, filter_prefix args = Some l ->
                            exists value, validate_prefix value = Ok l
}.

(** Where a connection stands in the subscription protocol. *)
Inductive phase : Set :=
| NoConnection
| JustOpened (ws : WebSocket)
| Subscribed (ws : WebSocket).

(** One operation, checked against the protocol: a connection opens when
    none is open, the first operation on it is the one [Send], of
    [payload]; messages are received and the connection is closed only
    after it. Logging and printing are not operations on the connection. *)
Definition protocol_step (payload : string) (p : phase) (e : event) : option phase :=
  match e with
  | Log _ _ | Print _ | Connect _ _ | CancelTask => Some p
  | Opened ws =>
      match p with
      | NoConnection => Some (JustOpened ws)
      | _ => None
      end
  | Send ws sent =>
      match p with
      | JustOpened ws' =>
          if (ws =? ws') && String.eqb sent payload then Some (Subscribed ws) else None
      | _ => None
      end
  | Recv ws _ =>
      match p with
      | Subscribed ws' => if ws =? ws' then Some p else None
      | _ => None
      end
  | Close ws =>
      match p with
      | Subscribed ws' => if ws =? ws' then Some NoConnection else None
      | _ => None
      end
  end.

Fixpoint protocol_run (payload : string) (p : phase) (t : list event) : option phase :=
  match t with
  | [] => Some p
  | e :: rest =>
      match protocol_step payload p e with
      | Some p' => protocol_run payload p' rest
      | None => None
      end
  end.

Definition is_Send (e : event) : bool :=
  match e with Send _ _ => true | _ => false end.

Definition is_Opened (e : event) : bool :=
  match e with Opened _ => true | _ => false end.

Definition trace_of {R : Type} (r : R * RipeRisStreamer * list event) : list event :=
  snd r.

(** CPython's default interpreter setting. *)
Definition cpython_default : Interpreter := {| int_max_str_digits := 4300 |}.

(** An [ipaddress] module cut down to the documentation addresses that the
    examples use (the library accepts each of them). *)
Definition documentation_addresses : Ipaddress :=
  {| ip_address := fun s => String.eqb s "192.0.2.1";
     ip_network := fun s => existsb (String.eqb s)
                              ["203.0.113.0/24"; "192.0.2.0/24"; "2001:db8::/32"] |}.

(** The namespace of [-k announcements] and of [-k withdrawals], of the
    specification's [-H rrc01,rrc02 -p 192.0.2.1 -f 203.0.113.0/24], and of
    [-d]. *)
Definition no_options : Namespace :=
  {| filter_host := None; filter_type := None; filter_key := None;
     filter_peer := None; filter_aspath := None; filter_prefix := None;
     more_specific := false; less_specific := false; include_raw := false;
     disable_auto_reconnect := false; debug := false |}.

Definition with_key (key : string) : Namespace :=
  {| filter_host := None; filter_type := None; filter_key := Some key;
     filter_peer := None; filter_aspath := None; filter_prefix := None;
     more_specific := false; less_specific := false; include_raw := false;
     disable_auto_reconnect := false; debug := false |}.

Definition round_trip_options : Namespace :=
  {| filter_host := Some ["rrc01"; "rrc02"]; filter_type := None;
     filter_key := None; filter_peer := Some "192.0.2.1";
     filter_aspath := None; filter_prefix := Some ["203.0.113.0/24"];
     more_specific := false; less_specific := false; include_raw := false;
     disable_auto_reconnect := false; debug := false |}.

(** The namespace of a command line to which [-d] is added. *)
Definition with_disable_auto_reconnect (args : Namespace) : Namespace :=
  {| filter_host := filter_host args; filter_type := filter_type args;
     filter_key := filter_key args; filter_peer := filter_peer args;
     filter_aspath := filter_aspath args; filter_prefix := filter_prefix args;
     more_specific := more_specific args; less_specific := less_specific args;
     include_raw := include_raw args; disable_auto_reconnect := true;
     debug := debug args |}.

(** The exception that the handling of one message ends with, if any: an
    exception of [print(message)] that is no [ValueError], or an exception
    of the handler's own [print]. *)
Definition arrival_exception (a : arrival) : option exc :=
  match print_result a with
  | None => None
  | Some (ValueError _) => handler_print_result a
  | Some e => Some e
  end.

(** The line that is printed for a message whose handling raises
    nothing. *)
Definition arrival_line (a : arrival) : string :=
  match print_result a with
  | Some (ValueError e) => "Error processing message: " ++ e
  | _ => message a
  end.

(** The exception that ends the reception loop, if any: that of the first
    message whose handling raises. *)
Fixpoint reception_exception (arrivals : list arrival) : option exc :=
  match arrivals with
  | [] => None
  | a :: rest =>
      match arrival_exception a with
      | Some e => Some e
      | None => reception_exception rest
      end
  end.

(** What the reception loop does, message by message, up to the first
    message whose handling raises. *)
Fixpoint reception_trace (ws : WebSocket) (arrivals : list arrival) : list event :=
  match arrivals with
  | [] => []
  | a :: rest =>
      Recv ws (message a)
      :: match arrival_exception a with
         | None => Print (arrival_line a) :: reception_trace ws rest
         | Some _ => []
         end
  end.

(** The exception that ends a call of [start_streaming] on a connection:
    the first of [connect], [send], [print("Listening...")], the handling
    of a message and the message iterator that raises. *)
Definition streaming_exception (c : connection) : option exc :=
  match connect_result c with
  | Some e => Some e
  | None =>
      match send_result c with
      | Some e => Some e
      | None =>
          match listening_print c with
          | Some e => Some e
          | None =>
              match reception_exception (incoming c) with
              | Some e => Some e
              | None => stream_end c
              end
          end
      end
  end.

(** The object after [self._ws = websocket]. *)
Definition bound_to (ws : WebSocket) (self : RipeRisStreamer) : RipeRisStreamer :=
  {| _options := _options self; _ws := Some ws; _sslcontext := _sslcontext self |}.

(** The operations of one call of [start_streaming] whose connection
    opens. *)
Definition streaming_trace (c : connection) (self : RipeRisStreamer) : list event :=
  let payload := Json.dumps (ris_subscribe (_options self)) in
  ([ Log "Creating websocket connection..." [];
     Connect uri (_sslcontext self);
     Opened (conn_ws c);
     Log "Sending RIS parameters..." [];
     Log "RIS parameters: %s " [payload];
     Send (conn_ws c) payload ]
   ++ match send_result c, listening_print c with
      | None, None =>
          [ Print "Listening..."; Log "Starting the reception loop..." [] ]
          ++ reception_trace (conn_ws c) (incoming c)
      | _, _ => []
      end
   ++ [ Close (conn_ws c) ])%list.

(** The streamer and the operations after one call of [start_streaming]. *)
Definition streamed_state (c : connection) (self : RipeRisStreamer) : RipeRisStreamer :=
  match connect_result c with
  | Some _ => self
  | None => bound_to (conn_ws c) self
  end.

Definition streamed_trace (c : connection) (self : RipeRisStreamer) : list event :=
  match connect_result c with
  | Some _ => [Log "Creating websocket connection..." []; Connect uri (_sslcontext self)]
  | None => streaming_trace c self
  end.

Definition state_of {R : Type} (r : R * RipeRisStreamer * list event)
  : RipeRisStreamer := snd (fst r).

Definition outcome_of {R : Type} (r : R * RipeRisStreamer * list event) : R :=
  fst (fst r).

(** A trace that keeps to the protocol, with as many [Send] as [Opened],
    every [Send] carrying [payload]. *)
Definition well_subscribed (payload : string) (t : list event) : Prop :=
  protocol_run payload NoConnection t = Some NoConnection
  /\ length (filter is_Send t) = length (filter is_Opened t)
  /\ Forall (fun e => is_Send e = true -> exists ws, e = Send ws payload) t.

(* ================================================================== *)
(** ** Notions used to state further properties of the code *)
(* ================================================================== *)

(** How often a character occurs in a string. *)
Fixpoint count_char (c : ascii) (s : string) : nat :=
  match s with
  | EmptyString => 0
  | String d r => (if Ascii.eqb d c then 1 else 0) + count_char c r
  end.

(** A printable ASCII character: SPACE to ~. *)
Definition printable (c : ascii) : bool :=
  let n := nat_of_ascii c in (32 <=? n) && (n <=? 126).

(** The keys that [_get_ris_params] always sets, and the optional ones, in
    the order of the two dictionary displays. *)
Definition fixed_keys : list string :=
  ["socketOptions"; "moreSpecific"; "lessSpecific"; "autoReconnect"].

Definition optional_keys : list string :=
  ["host"; "type"; "require"; "peer"; "path"; "prefix"].

(** A namespace with [-a] given, its value validated to [paths]. *)
Definition with_aspath (args : Namespace) (paths : list string) : Namespace :=
  {| filter_host := filter_host args; filter_type := filter_type args;
     filter_key := filter_key args; filter_peer := filter_peer args;
     filter_aspath := Some paths; filter_prefix := filter_prefix args;
     more_specific := more_specific args; less_specific := less_specific args;
     include_raw := include_raw args;
     disable_auto_reconnect := disable_auto_reconnect args;
     debug := debug args |}.

(** A connection after which the loop of [main] goes on: the call of
    [start_streaming] ends normally, or with a [ConnectionError] that the
    handler of [main] manages to print. *)
Definition recoverable (c : connection) : bool :=
  match streaming_exception c with
  | None => true
  | Some (ConnectionError _) =>
      match error_print c with
      | None => true
      | Some _ => false
      end
  | Some _ => false
  end.

(** The messages that the reception loop takes from the iterator: all of
    them up to and including the first whose handling raises. *)
Fixpoint taken (arrivals : list arrival) : list arrival :=
  match arrivals with
  | [] => []
  | a :: rest =>
      a :: match arrival_exception a with
           | None => taken rest
           | Some _ => []
           end
  end.

(** The lines printed for a message: one, or none when its handling
    raises. *)
Definition arrival_lines (a : arrival) : list string :=
  match arrival_exception a with
  | None => [arrival_line a]
  | Some _ => []
  end.

Definition is_Connect (e : event) : bool :=
  match e with Connect _ _ => true | _ => false end.

Definition is_Close (e : event) : bool :=
  match e with Close _ => true | _ => false end.


(** The messages received and the lines printed along a trace, in order. *)
Definition received (t : list event) : list string :=
  flat_map (fun e => match e with Recv _ message => [message] | _ => [] end) t.

Definition printed (t : list event) : list string :=
  flat_map (fun e => match e with Print text => [text] | _ => [] end) t.


(** Every connection attempt goes to the fixed endpoint with certificate
    checks switched off. *)
Definition unverified_connect (e : event) : Prop :=
  match e with
  | Connect u ssl => u = uri /\ check_hostname ssl = false /\ verify_mode ssl = CERT_NONE
  | _ => True
  end.

(** Induction on the values handed to [json.dumps], through the lists
    and dictionaries that hold them. *)
Section ValueInduction.
Variable P : Json.value -> Prop.
Hypothesis HNull : P Json.Null.
Hypothesis HBool : forall b, P (Json.Bool b).
Hypothesis HStr : forall s, P (Json.Str s).
Hypothesis HList : forall items, Forall P items -> P (Json.List items).
Hypothesis HDict :
  forall items, Forall (fun kv => P (snd kv)) items -> P (Json.Dict items).

Fixpoint value_induction (v : Json.value) : P v :=
  match v with
  | Json.Null => HNull
  | Json.Bool b => HBool b
  | Json.Str s => HStr s
  | Json.List items =>
      HList items
        ((fix go (l : list Json.value) : Forall P l :=
            match l with
            | [] => Forall_nil P
            | x :: r => Forall_cons x (value_induction x) (go r)
            end) items)
  | Json.Dict items =>
      HDict items
        ((fix go (l : list (string * Json.value)) : Forall (fun kv => P (snd kv)) l :=
            match l with
            | [] => Forall_nil _
            | kv :: r =>
                Forall_cons kv
                  (match kv as kv0 return P (snd kv0) with
                   | (_, x) => value_induction x
                   end)
                  (go r)
            end) items)
  end.
End ValueInduction.

(* ================================================================== *)
(** ** Strings: splitting and stripping *)
(* ================================================================== *)

Section StringFacts.

Lemma split_not_nil (sep : ascii) (s : string) : PyStr.split sep s <> [].
Proof.
  destruct s as [|c r]; simpl; [discriminate|].
  destruct (Ascii.eqb c sep); [discriminate|].
  destruct (PyStr.split sep r); discriminate.
Qed.

Lemma split_pieces_without_sep (sep : ascii) (s : string) :
  Forall (fun t => PyStr.contains sep t = false) (PyStr.split sep s).
Proof.
  induction s as [|c r IH]; simpl.
  - constructor; [reflexivity | constructor].
  - destruct (Ascii.eqb c sep) eqn:E.
    + constructor; [reflexivity | exact IH].
    + destruct (PyStr.split sep r) as [|h t].
      * constructor; [|constructor]. simpl.
        rewrite Ascii.eqb_sym, E. reflexivity.
      * inversion IH as [|? ? Hh Ht]; subst.
        constructor; [|exact Ht]. simpl.
        rewrite Ascii.eqb_sym, E. exact Hh.
Qed.

Lemma split_without_sep (sep : ascii) (s : string) :
  PyStr.contains sep s = false -> PyStr.split sep s = [s].
Proof.
  induction s as [|c r IH]; simpl; intros H; [reflexivity|].
  apply orb_false_iff in H as [Hc Hr].
  rewrite Ascii.eqb_sym, Hc, (IH Hr). reflexivity.
Qed.

Lemma lstrip_by_without (p : ascii -> bool) (c : ascii) (s : string) :
  PyStr.contains c s = false -> PyStr.contains c (PyStr.lstrip_by p s) = false.
Proof.
  induction s as [|a r IH]; simpl; intros H; [reflexivity|].
  destruct (p a); [|exact H].
  apply orb_false_iff in H as [_ Hr]. exact (IH Hr).
Qed.

Lemma rstrip_by_without (p : ascii -> bool) (c : ascii) (s : string) :
  PyStr.contains c s = false -> PyStr.contains c (PyStr.rstrip_by p s) = false.
Proof.
  induction s as [|a r IH]; simpl; intros H; [reflexivity|].
  apply orb_false_iff in H as [Ha Hr]. specialize (IH Hr).
  destruct (PyStr.rstrip_by p r) as [|b r'].
  - destruct (p a); simpl; [reflexivity|]. rewrite Ha. reflexivity.
  - change (Ascii.eqb c a || PyStr.contains c (String b r') = false).
    rewrite Ha, IH. reflexivity.
Qed.

(** What [rstrip_by p] returns does not end in a character of [p]. *)
Lemma rstrip_by_last (p : ascii -> bool) (s pre : string) (c : ascii) :
  PyStr.rstrip_by p s = (pre ++ String c EmptyString)%string -> p c = false.
Proof.
  revert pre. induction s as [|a r IH]; simpl; intros pre H.
  - destruct pre; discriminate.
  - destruct (PyStr.rstrip_by p r) as [|b r'] eqn:E.
    + destruct (p a) eqn:Pa; [destruct pre; discriminate|].
      destruct pre as [|x pre']; simpl in H.
      * injection H as ->. exact Pa.
      * injection H as _ H. destruct pre'; discriminate.
    + destruct pre as [|x pre']; simpl in H.
      * discriminate.
      * injection H as _ H. exact (IH pre' H).
Qed.

Lemma tokens_without_comma (value : string) :
  Forall (fun t => PyStr.contains "," t = false) (tokens value).
Proof.
  unfold tokens. apply Forall_map.
  eapply Forall_impl; [|apply split_pieces_without_sep].
  intros t Ht. unfold PyStr.strip.
  apply rstrip_by_without, lstrip_by_without, Ht.
Qed.

Lemma split_pieces_without_char (sep c : ascii) (s : string) :
  PyStr.contains c s = false ->
  Forall (fun t => PyStr.contains c t = false) (PyStr.split sep s).
Proof.
  induction s as [|a r IH]; simpl; intros H.
  - constructor; [reflexivity | constructor].
  - apply orb_false_iff in H as [Ha Hr]. specialize (IH Hr).
    destruct (Ascii.eqb a sep).
    + constructor; [reflexivity | exact IH].
    + destruct (PyStr.split sep r) as [|h t].
      * constructor; [|constructor]. simpl. rewrite Ha. reflexivity.
      * inversion IH as [|? ? Hh Ht]; subst.
        constructor; [|exact Ht]. simpl. rewrite Ha. exact Hh.
Qed.

Lemma tokens_without_char (c : ascii) (value : string) :
  PyStr.contains c value = false ->
  Forall (fun t => PyStr.contains c t = false) (tokens value).
Proof.
  intros H. unfold tokens. apply Forall_map.
  eapply Forall_impl; [|apply split_pieces_without_char, H].
  intros t Ht. unfold PyStr.strip.
  apply rstrip_by_without, lstrip_by_without, Ht.
Qed.

Lemma tokens_not_nil (value : string) : tokens value <> [].
Proof.
  unfold tokens. intros H. apply map_eq_nil in H.
  exact (split_not_nil _ _ H).
Qed.

End StringFacts.

(* ================================================================== *)
(** ** The collector-identifier validator *)
(* ================================================================== *)

Section CollectorIdentifiers.

(** On a trimmed token the regular expression matches the whole token:
    the newline that [$] tolerates cannot be there. *)
Lemma re_match_rrc_stripped (s : string) :
  re_match_rrc (PyStr.strip s) = true <-> is_rrcNN (PyStr.strip s).
Proof.
  split.
  - intros H.
    destruct (PyStr.strip s) as [|a [|b [|c [|d1 [|d2 rest]]]]] eqn:E;
      simpl in H; try discriminate.
    apply andb_true_iff in H as [H Hrest].
    apply andb_true_iff in H as [H Hd2].
    apply andb_true_iff in H as [H Hd1].
    apply andb_true_iff in H as [H Hc].
    apply andb_true_iff in H as [Ha Hb].
    apply Ascii.eqb_eq in Ha, Hb, Hc. subst a b c.
    destruct rest as [|nl [|x rest]]; try discriminate.
    + exists d1, d2. repeat split; assumption.
    + apply Ascii.eqb_eq in Hrest. subst nl. exfalso.
      unfold PyStr.strip in E.
      pose proof (rstrip_by_last PyStr.isspace _
                    (String "r" (String "r" (String "c" (String d1 (String d2 EmptyString)))))
                    "010"%char E) as Hnl.
      discriminate Hnl.
  - intros (d1 & d2 & H1 & H2 & ->). simpl. rewrite H1, H2. reflexivity.
Qed.

Lemma re_match_rrc_token (value t : string) :
  In t (tokens value) -> (re_match_rrc t = true <-> is_rrcNN t).
Proof.
  unfold tokens. intros H. apply in_map_iff in H as (s & <- & _).
  apply re_match_rrc_stripped.
Qed.

Lemma validate_rrc_loop_ok (l : list string) :
  (forall t, In t l -> (re_match_rrc t = true <-> is_rrcNN t)) ->
  (validate_rrc_loop l = Ok tt <-> Forall is_rrcNN l).
Proof.
  induction l as [|t l IH]; simpl; intros Hm.
  - split; [constructor | reflexivity].
  - destruct (re_match_rrc t) eqn:E; simpl.
    + rewrite IH by (intros; apply Hm; right; assumption).
      split; intros H.
      * constructor; [apply Hm; [left; reflexivity | exact E] | exact H].
      * inversion H; assumption.
    + split; [discriminate|]. intros H. inversion H as [|? ? Ht _]; subst.
      apply Hm in Ht; [congruence | left; reflexivity].
Qed.

Lemma validate_rrc_loop_first (pre post : list string) (t : string) :
  (forall x, In x (pre ++ t :: post)%list -> (re_match_rrc x = true <-> is_rrcNN x)) ->
  Forall is_rrcNN pre -> ~ is_rrcNN t ->
  validate_rrc_loop (pre ++ t :: post)%list = ArgumentTypeError (rrc_message t).
Proof.
  induction pre as [|p pre IH]; simpl; intros Hm Hpre Ht.
  - destruct (re_match_rrc t) eqn:E; [|reflexivity].
    exfalso. apply Ht, Hm; [left; reflexivity | exact E].
  - inversion Hpre as [|? ? Hp Hpre']; subst.
    apply Hm in Hp; [|left; reflexivity]. rewrite Hp. simpl.
    apply IH; [|exact Hpre' | exact Ht].
    intros x Hx. apply Hm. right. exact Hx.
Qed.

Lemma validate_rrc_loop_cases (l : list string) :
  (forall t, In t l -> (re_match_rrc t = true <-> is_rrcNN t)) ->
  validate_rrc_loop l = Ok tt
  \/ exists t, In t l /\ ~ is_rrcNN t
               /\ validate_rrc_loop l = ArgumentTypeError (rrc_message t).
Proof.
  induction l as [|t l IH]; simpl; intros Hm; [left; reflexivity|].
  destruct (re_match_rrc t) eqn:E; simpl.
  - destruct IH as [H | (x & Hx & Hn & H)].
    + intros; apply Hm; right; assumption.
    + left; exact H.
    + right. exists x. repeat split; [right; exact Hx | exact Hn | exact H].
  - right. exists t. repeat split; [left; reflexivity|].
    intros Ht. apply Hm in Ht; [congruence | left; reflexivity].
Qed.

(** C4. [validate_rrc] accepts a raw input exactly when every comma-split,
    whitespace-trimmed token is "rrc" followed by exactly two digits, and
    then returns the tokens; otherwise the whole call is rejected, and the
    diagnostic quotes the first token that does not match. *)
Theorem validate_rrc_accepts_iff (value : string) :
  (forall l, validate_rrc value = Ok l
             <-> Forall is_rrcNN (tokens value) /\ l = tokens value)
  /\ (forall pre t post,
         tokens value = (pre ++ t :: post)%list ->
         Forall is_rrcNN pre -> ~ is_rrcNN t ->
         validate_rrc value
         = ArgumentTypeError
             ("Invalid RRC format '" ++ t
              ++ "'. Must be in format 'rrcXX' where X is a digit"))
  /\ ((exists l, validate_rrc value = Ok l)
      \/ (exists t, In t (tokens value) /\ ~ is_rrcNN t
                    /\ validate_rrc value = ArgumentTypeError (rrc_message t))).
Proof.
  unfold validate_rrc. fold (tokens value).
  pose proof (re_match_rrc_token value) as Hm.
  split; [|split].
  - intros l. rewrite <- (validate_rrc_loop_ok _ Hm).
    destruct (validate_rrc_loop (tokens value)) as [[]|msg].
    + split; [intros [= <-]; split; reflexivity | intros [_ ->]; reflexivity].
    + split; [discriminate | intros [H _]; discriminate].
  - intros pre t post E Hpre Ht. rewrite E in *.
    rewrite (validate_rrc_loop_first pre post t Hm Hpre Ht). reflexivity.
  - destruct (validate_rrc_loop_cases _ Hm) as [H | (t & Hin & Hn & H)]; rewrite H.
    + left. eexists. reflexivity.
    + right. exists t. repeat split; assumption.
Qed.

End CollectorIdentifiers.

(* ================================================================== *)
(** ** The network-prefix validator *)
(* ================================================================== *)

Section NetworkPrefixes.
Context {ipaddress : Ipaddress}.

Lemma validate_prefix_loop_ok (l acc r : list string) :
  validate_prefix_loop l acc = Ok r
  <-> Forall prefix_accepted l /\ r = (acc ++ l)%list.
Proof.
  revert acc. induction l as [|t l IH]; simpl; intros acc.
  - rewrite app_nil_r. split.
    + intros [= <-]. split; [constructor | reflexivity].
    + intros [_ ->]. reflexivity.
  - destruct (PyStr.contains "/" t) eqn:Hs; simpl.
    + destruct (ip_network t) eqn:Hn.
      * rewrite IH, <- app_assoc. simpl. split.
        -- intros [H ->]. split; [constructor; [split; assumption | exact H] | reflexivity].
        -- intros [H ->]. inversion H; subst. split; [assumption | reflexivity].
      * split; [discriminate|]. intros [H _]. inversion H as [|? ? [_ Hn'] _]; subst.
        congruence.
    + split; [discriminate|]. intros [H _]. inversion H as [|? ? [Hs' _] _]; subst.
      congruence.
Qed.

Lemma validate_prefix_loop_first (pre post acc : list string) (t : string) :
  Forall prefix_accepted pre ->
  validate_prefix_loop (pre ++ t :: post)%list acc
  = if negb (PyStr.contains "/" t) then ArgumentTypeError (prefix_mask_message t)
    else if ip_network t
         then validate_prefix_loop post ((acc ++ pre) ++ [t])%list
         else ArgumentTypeError (prefix_format_message t).
Proof.
  revert acc. induction pre as [|p pre IH]; simpl; intros acc Hpre.
  - rewrite app_nil_r. reflexivity.
  - inversion Hpre as [|? ? [Hs Hn] Hpre']; subst.
    rewrite Hs, Hn. simpl. rewrite (IH _ Hpre'), <- !app_assoc. reflexivity.
Qed.

(** C5. [validate_prefix] accepts exactly the inputs whose tokens all
    contain "/" and parse as a network under non-strict parsing; a token
    without "/" that the loop reaches is rejected with the "must include
    mask" diagnostic, a token with "/" that does not parse with the
    generic one; an input without any "/" is always rejected with the
    "must include mask" diagnostic, for its first token; and the two
    diagnostics are never the same text. *)
Theorem validate_prefix_diagnostics (value : string) :
  (forall l, validate_prefix value = Ok l
             <-> Forall prefix_accepted (tokens value) /\ l = tokens value)
  /\ (forall pre t post,
         tokens value = (pre ++ t :: post)%list ->
         Forall prefix_accepted pre ->
         PyStr.contains "/" t = false ->
         validate_prefix value
         = ArgumentTypeError
             ("Network prefix '" ++ t
              ++ "' must include mask in CIDR notation (e.g. 192.0.2.0/24 or 2001:db8::/32)"))
  /\ (forall pre t post,
         tokens value = (pre ++ t :: post)%list ->
         Forall prefix_accepted pre ->
         PyStr.contains "/" t = true -> ip_network t = false ->
         validate_prefix value
         = ArgumentTypeError ("Invalid network prefix format: " ++ t))
  /\ (PyStr.contains "/" value = false ->
      exists t rest,
        tokens value = t :: rest
        /\ validate_prefix value = ArgumentTypeError (prefix_mask_message t))
  /\ (forall t t', prefix_mask_message t <> prefix_format_message t').
Proof.
  unfold validate_prefix. fold (tokens value).
  split; [|split; [|split; [|split]]].
  - intros l. apply validate_prefix_loop_ok.
  - intros pre t post E Hpre Hs. rewrite E.
    rewrite (validate_prefix_loop_first _ _ _ _ Hpre), Hs. reflexivity.
  - intros pre t post E Hpre Hs Hn. rewrite E.
    rewrite (validate_prefix_loop_first _ _ _ _ Hpre), Hs, Hn. reflexivity.
  - intros H. pose proof (tokens_without_char "/" value H) as Hall.
    destruct (tokens value) as [|t rest] eqn:E; [exact (False_ind _ (tokens_not_nil _ E))|].
    inversion Hall as [|? ? Ht _]; subst.
    exists t, rest. split; [reflexivity|]. simpl. rewrite Ht. reflexivity.
  - intros t t'. unfold prefix_mask_message, prefix_format_message.
    simpl. discriminate.
Qed.

End NetworkPrefixes.

(* ================================================================== *)
(** ** The AS-path validator *)
(* ================================================================== *)

Section StripFacts.
Variable p : ascii -> bool.

Lemma lstrip_by_all (s : string) :
  string_forallb p s = true -> PyStr.lstrip_by p s = EmptyString.
Proof.
  induction s as [|c r IH]; simpl; intros H; [reflexivity|].
  apply andb_true_iff in H as [Hc Hr]. rewrite Hc. exact (IH Hr).
Qed.

Lemma lstrip_by_split (s : string) :
  exists pre, s = (pre ++ PyStr.lstrip_by p s)%string /\ string_forallb p pre = true.
Proof.
  induction s as [|c r (pre & E & H)]; simpl.
  - exists EmptyString. split; reflexivity.
  - destruct (p c) eqn:Pc.
    + exists (String c pre). simpl. rewrite Pc, H, <- E. split; reflexivity.
    + exists EmptyString. split; reflexivity.
Qed.

Lemma rstrip_by_split (s : string) :
  exists post, s = (PyStr.rstrip_by p s ++ post)%string /\ string_forallb p post = true.
Proof.
  induction s as [|c r (post & E & H)]; simpl.
  - exists EmptyString. split; reflexivity.
  - destruct (PyStr.rstrip_by p r) as [|b r'] eqn:R; simpl in E.
    + subst r. destruct (p c) eqn:Pc.
      * exists (String c post). simpl. rewrite Pc, H. split; reflexivity.
      * exists post. split; [reflexivity | exact H].
    + exists post. simpl. rewrite <- E. split; [reflexivity | exact H].
Qed.

Lemma lstrip_by_head (s r : string) (c : ascii) :
  PyStr.lstrip_by p s = String c r -> p c = false.
Proof.
  induction s as [|a s IH]; simpl; [discriminate|].
  destruct (p a) eqn:Pa; [exact IH|]. intros [= -> _]. exact Pa.
Qed.

Lemma rstrip_by_head (s r : string) (c : ascii) :
  PyStr.rstrip_by p s = String c r -> exists r', s = String c r'.
Proof.
  destruct s as [|a s]; simpl; [discriminate|].
  destruct (PyStr.rstrip_by p s); [destruct (p a)|];
    intros [= -> _]; eexists; reflexivity.
Qed.

End StripFacts.

(** [s.strip(chars)] cuts [s] into a run of characters of [chars], the part
    that is kept, and a second run of characters of [chars]; the part that
    is kept neither starts nor ends with a character of [chars]. *)
Lemma strip_chars_spec (chars s : string) :
  let inside := fun c => PyStr.contains c chars in
  exists pre post,
    s = (pre ++ PyStr.strip_chars chars s ++ post)%string
    /\ string_forallb inside pre = true
    /\ string_forallb inside post = true
    /\ (forall c r, PyStr.strip_chars chars s = String c r -> inside c = false)
    /\ (forall r c, PyStr.strip_chars chars s = (r ++ String c EmptyString)%string ->
                    inside c = false).
Proof.
  intros inside. unfold PyStr.strip_chars. fold inside.
  destruct (lstrip_by_split inside s) as (pre & E1 & H1).
  destruct (rstrip_by_split inside (PyStr.lstrip_by inside s)) as (post & E2 & H2).
  exists pre, post. repeat split; try assumption.
  - rewrite <- E2. exact E1.
  - intros c r E. destruct (rstrip_by_head _ _ _ _ E) as (r' & E').
    exact (lstrip_by_head _ _ _ _ E').
  - intros r c E. exact (rstrip_by_last _ _ _ _ E).
Qed.

Section IntFacts.
Context {py : Interpreter}.

Lemma digit_is_plain (c : ascii) :
  PyStr.isdigit c = true ->
  PyInt.int_space c = false /\ Ascii.eqb c "+" = false
  /\ Ascii.eqb c "-" = false /\ Ascii.eqb c "_" = false
  /\ PyStr.contains c "^$" = false.
Proof.
  destruct c as [[] [] [] [] [] [] [] []]; intros H;
    first [discriminate H | repeat split].
Qed.

Lemma scan_digits_plain (s : string) (acc : Z) (n : nat) :
  string_forallb PyStr.isdigit s = true ->
  PyInt.scan_digits s false acc n = Some (decimal acc s, n + String.length s, EmptyString).
Proof.
  revert acc n. induction s as [|c r IH]; simpl; intros acc n H.
  - rewrite Nat.add_0_r. reflexivity.
  - apply andb_true_iff in H as [Hc Hr]. rewrite Hc, (IH _ _ Hr).
    rewrite Nat.add_succ_r. reflexivity.
Qed.

(** On a plain string of at most 640 decimal digits, [int] returns the
    number that it writes. *)
Lemma int_plain_decimal (s : string) :
  s <> EmptyString -> string_forallb PyStr.isdigit s = true ->
  String.length s <= 640 ->
  PyInt.int s = Some (decimal 0 s).
Proof.
  intros Hne Hd Hlen. destruct s as [|c r]; [congruence|].
  pose proof Hd as Hd'. simpl in Hd'. apply andb_true_iff in Hd' as [Hc _].
  destruct (digit_is_plain c Hc) as (H1 & H2 & H3 & H4 & _).
  unfold PyInt.int. cbn [PyStr.lstrip_by]. rewrite H1, H2, H3, H4.
  rewrite (scan_digits_plain _ _ _ Hd). cbn [Nat.add].
  cbn [String.length Nat.eqb PyStr.lstrip_by].
  replace (640 <? S (String.length r)) with false; [reflexivity|].
  symmetry. apply Nat.ltb_ge. exact Hlen.
Qed.

(** An expression of plain decimal digits, without anchors, is accepted
    exactly when its number is at most 4294967295. *)
Lemma plain_decimal_expression (path : string) :
  path <> EmptyString -> string_forallb PyStr.isdigit path = true ->
  String.length path <= 640 ->
  (aspath_accepted path <-> (decimal 0 path <= 4294967295)%Z).
Proof.
  intros Hne Hd Hlen. unfold aspath_accepted.
  assert (Hstrip : PyStr.strip_chars "^$" path = path).
  { destruct (strip_chars_spec "^$" path) as (pre & post & E & Hpre & Hpost & _).
    assert (Hin : forall a b, string_forallb PyStr.isdigit (a ++ b)%string = true ->
                   string_forallb (fun c => PyStr.contains c "^$") a = true ->
                   a = EmptyString).
    { intros [|c a] b Hab Ha; [reflexivity|]. exfalso. simpl in Hab, Ha.
      apply andb_true_iff in Hab as [Hc _]. apply andb_true_iff in Ha as [Hc' _].
      destruct (digit_is_plain c Hc) as (_ & _ & _ & _ & Hx).
      simpl in Hx. congruence. }
    assert (Hall : forall a b, string_forallb PyStr.isdigit (a ++ b)%string = true ->
                    string_forallb PyStr.isdigit b = true).
    { induction a as [|c a IHa]; simpl; intros b H; [exact H|].
      apply andb_true_iff in H as [_ H]. exact (IHa _ H). }
    rewrite E in Hd. pose proof (Hin _ _ Hd Hpre) as ->. simpl in E, Hd.
    apply Hall in Hd. destruct post as [|c post].
    - rewrite E at 2. clear. induction (PyStr.strip_chars "^$" path); simpl; congruence.
    - exfalso. simpl in Hd, Hpost. apply andb_true_iff in Hd as [Hc _].
      apply andb_true_iff in Hpost as [Hc' _].
      destruct (digit_is_plain c Hc) as (_ & _ & _ & _ & Hx). simpl in Hx. congruence. }
  rewrite Hstrip, (int_plain_decimal path Hne Hd Hlen).
  assert (Hpos : forall s acc, (0 <= acc)%Z -> (0 <= decimal acc s)%Z).
  { induction s as [|c r IHr]; cbn [decimal]; intros acc Hacc; [exact Hacc|].
    apply IHr. unfold PyInt.digit_value.
    apply Z.add_nonneg_nonneg; [lia | apply Nat2Z.is_nonneg]. }
  specialize (Hpos path 0%Z (Z.le_refl 0)).
  split.
  - intros [H | (n & [= <-] & H)]; [congruence | lia].
  - intros H. right. eexists. split; [reflexivity | lia].
Qed.

End IntFacts.

Section AsPaths.
Context {py : Interpreter}.

Lemma validate_aspath_asns_single (clean_path : string) :
  validate_aspath_asns [clean_path] = true
  <-> clean_path = EmptyString
      \/ exists n, PyInt.int clean_path = Some n /\ (0 <= n <= 4294967295)%Z.
Proof.
  simpl. destruct clean_path as [|c r]; simpl.
  - split; [left; reflexivity | reflexivity].
  - destruct (PyInt.int (String c r)) as [n|].
    + destruct (0 <=? n)%Z eqn:L; destruct (n <=? 4294967295)%Z eqn:U; simpl;
        first [ split; [discriminate | intros [H | (m & [= <-] & H)]; [discriminate | lia]]
              | split; [intros _; right; exists n; split; [reflexivity | lia] | reflexivity] ].
    + split; [discriminate | intros [H | (m & H & _)]; discriminate].
Qed.

(** The inner split finds one token: an expression holds no comma. *)
Lemma validate_aspath_expression (path : string) :
  PyStr.contains "," path = false ->
  (validate_aspath_asns (PyStr.split "," (PyStr.strip_chars "^$" path)) = true
   <-> aspath_accepted path).
Proof.
  intros H. rewrite split_without_sep.
  - apply validate_aspath_asns_single.
  - unfold PyStr.strip_chars. apply rstrip_by_without, lstrip_by_without, H.
Qed.

Lemma validate_aspath_loop_ok (l acc r : list string) :
  Forall (fun t => PyStr.contains "," t = false) l ->
  (validate_aspath_loop l acc = Ok r
   <-> Forall aspath_accepted l /\ r = (acc ++ l)%list).
Proof.
  revert acc. induction l as [|t l IH]; simpl; intros acc Hc.
  - rewrite app_nil_r. split.
    + intros [= <-]. split; [constructor | reflexivity].
    + intros [_ ->]. reflexivity.
  - inversion Hc as [|? ? Ht Hl]; subst.
    pose proof (validate_aspath_expression t Ht) as Hx.
    destruct (validate_aspath_asns (PyStr.split "," (PyStr.strip_chars "^$" t))).
    + rewrite (IH _ Hl), <- app_assoc. simpl. split.
      * intros [H ->]. split; [constructor; [apply Hx; reflexivity | exact H] | reflexivity].
      * intros [H ->]. inversion H; subst. split; [assumption | reflexivity].
    + split; [discriminate|]. intros [H _]. inversion H as [|? ? Ha _]; subst.
      apply Hx in Ha. discriminate.
Qed.

Lemma validate_aspath_loop_first (pre post acc : list string) (t : string) :
  Forall (fun x => PyStr.contains "," x = false) (pre ++ t :: post)%list ->
  Forall aspath_accepted pre -> ~ aspath_accepted t ->
  validate_aspath_loop (pre ++ t :: post)%list acc
  = ArgumentTypeError (aspath_message t).
Proof.
  revert acc. induction pre as [|x pre IH]; simpl; intros acc Hc Hpre Ht;
    inversion Hc as [|? ? Hx Hl]; subst.
  - pose proof (validate_aspath_expression t Hx) as E.
    destruct (validate_aspath_asns (PyStr.split "," (PyStr.strip_chars "^$" t)));
      [|reflexivity].
    exfalso. apply Ht, E. reflexivity.
  - inversion Hpre as [|? ? Ha Hpre']; subst.
    apply (validate_aspath_expression x Hx) in Ha. rewrite Ha.
    apply IH; assumption.
Qed.

Lemma anchors_only_accepted (path : string) :
  anchors_only path = true -> aspath_accepted path.
Proof.
  intros H. left. unfold PyStr.strip_chars.
  rewrite (lstrip_by_all _ _ H). reflexivity.
Qed.

(** C3, as amended. For every raw input, [validate_aspath] removes from
    each trimmed expression every leading and every trailing "^" and "$"
    (either character at either end, any number of them) and nothing
    else, for validation only; the input is accepted exactly when what is
    left of each expression is empty or reads, with [int], as an integer
    in [0, 4294967295]; the list returned holds the expressions as they
    were given, anchors included, and a rejection quotes the first
    expression that fails. *)
Theorem validate_aspath_accepts_iff (value : string) :
  (forall l, validate_aspath value = Ok l
             <-> Forall aspath_accepted (tokens value) /\ l = tokens value)
  /\ (forall pre t post,
         tokens value = (pre ++ t :: post)%list ->
         Forall aspath_accepted pre -> ~ aspath_accepted t ->
         validate_aspath value
         = ArgumentTypeError
             ("Invalid AS path format in '" ++ t
              ++ "'. Must be comma-separated ASNs"))
  /\ (forall path, exists before after,
         path = (before ++ PyStr.strip_chars "^$" path ++ after)%string
         /\ anchors_only before = true /\ anchors_only after = true
         /\ (forall c r, PyStr.strip_chars "^$" path = String c r ->
                         PyStr.contains c "^$" = false)
         /\ (forall r c, PyStr.strip_chars "^$" path = (r ++ String c EmptyString)%string ->
                         PyStr.contains c "^$" = false)).
Proof.
  unfold validate_aspath. fold (tokens value).
  pose proof (tokens_without_comma value) as Hc.
  split; [|split].
  - intros l. apply (validate_aspath_loop_ok _ [] l Hc).
  - intros pre t post E Hpre Ht. rewrite E in *.
    apply validate_aspath_loop_first; assumption.
  - intros path. exact (strip_chars_spec "^$" path).
Qed.

(** C9, as amended. [validate_aspath] never rejects an input whose
    expressions hold nothing but anchor characters: the empty string and
    expressions such as "^$" are accepted (the empty token is skipped) and
    the list returned holds them as they were given, trimmed of
    whitespace. *)
Theorem anchor_only_expressions_accepted (value : string) :
  forallb anchors_only (tokens value) = true ->
  validate_aspath value = Ok (tokens value).
Proof.
  intros H. unfold validate_aspath. fold (tokens value).
  apply (validate_aspath_loop_ok _ [] _ (tokens_without_comma value)).
  split; [|reflexivity].
  apply Forall_forall. intros t Ht. apply anchors_only_accepted.
  rewrite forallb_forall in H. exact (H t Ht).
Qed.

End AsPaths.

(** The two expressions of the specification's test, the empty and the
    anchor-only expression, under CPython's default digit limit. *)
Example validate_aspath_spec_examples :
  @validate_aspath cpython_default "^123,456,789$" = Ok ["^123"; "456"; "789$"]
  /\ @validate_aspath cpython_default "^123,abc,789$"
     = ArgumentTypeError "Invalid AS path format in 'abc'. Must be comma-separated ASNs"
  /\ @validate_aspath cpython_default "" = Ok [""]
  /\ @validate_aspath cpython_default "^$" = Ok ["^$"]
  /\ @validate_aspath cpython_default "4294967295,4294967296"
     = ArgumentTypeError
         "Invalid AS path format in '4294967296'. Must be comma-separated ASNs".
Proof. vm_compute. repeat split. Qed.

(** C3, the claim as it is stated fails: "$123" and "123^" carry a
    misplaced anchor; the specification's wording (one leading "^", one
    trailing "$") rejects both, [validate_aspath] accepts both and keeps
    them. *)
Lemma misplaced_anchors_accepted :
  @spec_aspath_accepted cpython_default "$123" = false
  /\ @validate_aspath cpython_default "$123" = Ok ["$123"]
  /\ @spec_aspath_accepted cpython_default "123^" = false
  /\ @validate_aspath cpython_default "123^" = Ok ["123^"].
Proof. vm_compute. repeat split. Qed.

(** C9, the claim as it is stated fails: "abc" contains no digit and is
    rejected. *)
Lemma digitless_expression_rejected :
  no_digits "abc" = true
  /\ @validate_aspath cpython_default "abc"
     = ArgumentTypeError "Invalid AS path format in 'abc'. Must be comma-separated ASNs".
Proof. vm_compute. split; reflexivity. Qed.

Lemma anchor_only_expressions_accepted_witness :
  forallb anchors_only (tokens " ^$ ,,$^^") = true
  /\ @validate_aspath cpython_default " ^$ ,,$^^" = Ok ["^$"; ""; "$^^"].
Proof.
  split; [vm_compute; reflexivity|].
  exact (@anchor_only_expressions_accepted cpython_default " ^$ ,,$^^" eq_refl).
Defined.

(* ================================================================== *)
(** ** The subscription payload *)
(* ================================================================== *)

Section Payload.
Context {py : Interpreter} {ipaddress : Ipaddress}.

Lemma validate_rrc_returns_tokens (value : string) (l : list string) :
  validate_rrc value = Ok l -> l = tokens value.
Proof.
  unfold validate_rrc. fold (tokens value).
  destruct (validate_rrc_loop (tokens value)); [|discriminate].
  intros [= <-]. reflexivity.
Qed.

Lemma validate_aspath_returns_tokens (value : string) (l : list string) :
  validate_aspath value = Ok l -> l = tokens value.
Proof.
  unfold validate_aspath. fold (tokens value). intros H.
  apply (validate_aspath_loop_ok _ [] l (tokens_without_comma value)) in H.
  exact (proj2 H).
Qed.

Lemma validate_prefix_returns_tokens (value : string) (l : list string) :
  validate_prefix value = Ok l -> l = tokens value.
Proof.
  unfold validate_prefix. fold (tokens value). intros H.
  apply validate_prefix_loop_ok in H. exact (proj2 H).
Qed.

(** What the command line delivers is never an empty list or an empty
    string: for these namespaces "given" and "truthy" are the same. *)
Lemma from_command_line_truthy (args : Namespace) :
  from_command_line args ->
  filter_host args <> Some []
  /\ filter_key args <> Some EmptyString
  /\ filter_aspath args <> Some []
  /\ filter_prefix args <> Some [].
Proof.
  intros [Hh _ Hk _ Ha Hp]. repeat split; intros E.
  - destruct (Hh _ E) as (v & Hv).
    apply validate_rrc_returns_tokens in Hv. symmetry in Hv.
    exact (tokens_not_nil _ Hv).
  - specialize (Hk _ E). simpl in Hk.
    destruct Hk as [Hk | [Hk | []]]; discriminate.
  - destruct (Ha _ E) as (v & Hv).
    apply validate_aspath_returns_tokens in Hv. symmetry in Hv.
    exact (tokens_not_nil _ Hv).
  - destruct (Hp _ E) as (v & Hv).
    apply validate_prefix_returns_tokens in Hv. symmetry in Hv.
    exact (tokens_not_nil _ Hv).
Qed.

(** The part of C2 that the code does satisfy: the "host" field is the
    first collector identifier. *)
Lemma host_is_first_collector (args : Namespace) (first : string) (rest : list string) :
  filter_host args = Some (first :: rest) ->
  PyDict.get "host" (ris_params args) = Some (Json.Str first).
Proof.
  destruct args as [h t k p a f m l r d g]. simpl. intros ->.
  destruct t, k as [[|? ?]|], p, a as [[|? ?]|], f as [[|? ?]|]; reflexivity.
Qed.

Ltac present_iff :=
  split; [intros _; discriminate | intros _; reflexivity].
Ltac absent_iff :=
  split; [discriminate | intros H; exfalso; apply H; reflexivity].

(** C6. For every namespace that the command line delivers, each of
    "host", "type", "require", "peer", "path" and "prefix" is a key of the
    payload's data exactly when the corresponding option was given; no
    value of the data is null; and "socketOptions" with "includeRaw",
    "moreSpecific", "lessSpecific" and "autoReconnect" are always there.
    The payload is the serialisation of exactly this data. *)
Theorem optional_fields_present_iff (args : Namespace) :
  from_command_line args ->
  let data := ris_params args in
  (PyDict.mem "host" data = true <-> filter_host args <> None)
  /\ (PyDict.mem "type" data = true <-> filter_type args <> None)
  /\ (PyDict.mem "require" data = true <-> filter_key args <> None)
  /\ (PyDict.mem "peer" data = true <-> filter_peer args <> None)
  /\ (PyDict.mem "path" data = true <-> filter_aspath args <> None)
  /\ (PyDict.mem "prefix" data = true <-> filter_prefix args <> None)
  /\ (forall k v, In (k, v) data -> v <> Json.Null)
  /\ PyDict.get "socketOptions" data
     = Some (Json.Dict [("includeRaw", Json.Bool (include_raw args))])
  /\ PyDict.get "moreSpecific" data = Some (Json.Bool (more_specific args))
  /\ PyDict.get "lessSpecific" data = Some (Json.Bool (less_specific args))
  /\ PyDict.get "autoReconnect" data
     = Some (Json.Bool (negb (disable_auto_reconnect args)))
  /\ (forall self, _options self = args ->
        _get_ris_params self
        = (Return (Json.dumps
                     (Json.Dict [("type", Json.Str "ris_subscribe");
                                 ("data", Json.Dict data)])),
           self, [])).
Proof.
  intros Hcli data.
  assert (Hdumps : forall self, _options self = args ->
            _get_ris_params self
            = (Return (Json.dumps
                         (Json.Dict [("type", Json.Str "ris_subscribe");
                                     ("data", Json.Dict data)])),
               self, [])) by (intros self <-; reflexivity).
  revert Hdumps. generalize (_get_ris_params). intros build Hdumps.
  destruct (from_command_line_truthy args Hcli) as (Hh & Hk & Ha & Hp).
  clear Hcli. subst data. destruct args as [h t k p a f m l r d g]. simpl in Hh, Hk, Ha, Hp.
  destruct h as [[|h0 h]|]; [congruence| |];
    destruct k as [[|k0 k]|]; try congruence;
    destruct a as [[|a0 a]|]; try congruence;
    destruct f as [[|f0 f]|]; try congruence;
    destruct t as [t|]; destruct p as [p|];
    (repeat match goal with |- _ /\ _ => split end);
    try reflexivity; try present_iff; try absent_iff;
    try exact Hdumps;
    try (intros key v Hin; cbv in Hin;
         repeat (destruct Hin as [[= <- <-] | Hin]; [discriminate|]);
         contradiction).
Qed.

End Payload.

(** C2, the code at [-k announcements] and at [-k withdrawals]: the
    "require" field of the payload is the first character of the key, "a" or
    "w", and not the key. (The "host" field is the first collector:
    [host_is_first_collector].) *)
Theorem require_is_first_character_of_key :
  PyDict.get "require" (ris_params (with_key "announcements")) = Some (Json.Str "a")
  /\ PyDict.get "require" (ris_params (with_key "withdrawals")) = Some (Json.Str "w")
  /\ String.eqb "a" "announcements" = false
  /\ String.eqb "w" "withdrawals" = false
  /\ fst (fst (_get_ris_params (__init__ (with_key "announcements"))))
     = Return (Json.dumps
                 (Json.Dict
                    [("type", Json.Str "ris_subscribe");
                     ("data",
                      Json.Dict [("socketOptions", Json.Dict [("includeRaw", Json.Bool false)]);
                                 ("moreSpecific", Json.Bool false);
                                 ("lessSpecific", Json.Bool false);
                                 ("autoReconnect", Json.Bool true);
                                 ("require", Json.Str "a")])])).
Proof. vm_compute. repeat split. Qed.

(** The specification's round trip: [-H rrc01,rrc02 -p 192.0.2.1
    -f 203.0.113.0/24] gives "host": "rrc01" and "prefix":
    ["203.0.113.0/24"]. *)
Example round_trip_payload :
  validate_rrc "rrc01,rrc02" = Ok ["rrc01"; "rrc02"]
  /\ @validate_peer documentation_addresses "192.0.2.1" = Ok "192.0.2.1"
  /\ @validate_prefix documentation_addresses "203.0.113.0/24" = Ok ["203.0.113.0/24"]
  /\ PyDict.get "host" (ris_params round_trip_options) = Some (Json.Str "rrc01")
  /\ PyDict.get "prefix" (ris_params round_trip_options)
     = Some (Json.List [Json.Str "203.0.113.0/24"]).
Proof. vm_compute. repeat split. Qed.

Lemma round_trip_from_command_line :
  @from_command_line cpython_default documentation_addresses round_trip_options.
Proof.
  constructor; simpl; intros x E; try discriminate; injection E as <-.
  - exists "rrc01,rrc02". reflexivity.
  - reflexivity.
  - exists "203.0.113.0/24". reflexivity.
Qed.

Lemma optional_fields_present_iff_witness :
  @from_command_line cpython_default documentation_addresses round_trip_options
  /\ (PyDict.mem "host" (ris_params round_trip_options) = true
      <-> filter_host round_trip_options <> None)
  /\ (PyDict.mem "type" (ris_params round_trip_options) = true
      <-> filter_type round_trip_options <> None).
Proof.
  pose proof (@optional_fields_present_iff cpython_default documentation_addresses
                round_trip_options round_trip_from_command_line) as H.
  split; [exact round_trip_from_command_line|].
  split; [exact (proj1 H) | exact (proj1 (proj2 H))].
Defined.

(* ================================================================== *)
(** ** The builder on the heap *)
(* ================================================================== *)

Section HeapFacts.
Context {limits : Recursion}.
Local Open Scope list_scope.

Lemma read_app (h ext : Heap.heap) (l : Heap.loc) (o : Heap.object) :
  Heap.read h l = Some o -> Heap.read (h ++ ext) l = Some o.
Proof.
  unfold Heap.read. intros H. rewrite nth_error_app1; [exact H|].
  apply nth_error_Some. rewrite H. discriminate.
Qed.

Lemma read_fresh (h ext : Heap.heap) (k : nat) :
  Heap.read (h ++ ext) (length h + k) = nth_error ext k.
Proof.
  unfold Heap.read. rewrite nth_error_app2 by lia.
  replace (length h + k - length h) with k by lia. reflexivity.
Qed.

Lemma write_fresh (h ext : Heap.heap) (k : nat) (o : Heap.object) :
  Heap.write (h ++ ext) (length h + k) o = h ++ Heap.write ext k o.
Proof.
  induction h as [|x h IH]; [reflexivity|].
  cbn [app length Nat.add Heap.write]. rewrite IH. reflexivity.
Qed.

Lemma alloc_app (h ext : Heap.heap) (o : Heap.object) :
  Heap.alloc o (h ++ ext)
  = Some (Heap.VRef (length h + length ext), h ++ (ext ++ [o])).
Proof. unfold Heap.alloc. rewrite length_app, app_assoc. reflexivity. Qed.

Lemma bind_value {A B : Type} (m : Heap.Py A) (k : A -> Heap.Py B)
      (h h1 : Heap.heap) (a : A) :
  m h = Some (a, h1) -> Heap.bind m k h = k a h1.
Proof. intros H. unfold Heap.bind. rewrite H. reflexivity. Qed.

(** A heap that grows still holds the streamer and its namespace. *)
Lemma list_or_None_app (h ext : Heap.heap) (x : option (list string)) (v : Heap.pyval) :
  Heap.list_or_None h x v -> Heap.list_or_None (h ++ ext) x v.
Proof.
  destruct x as [l|]; [|exact (fun H => H)].
  intros (at_list & -> & H). exists at_list. split; [reflexivity|].
  apply read_app. exact H.
Qed.

Lemma reflects_app (h ext : Heap.heap) (self : Heap.loc) (args : Namespace) :
  Heap.reflects h self args -> Heap.reflects (h ++ ext) self args.
Proof.
  intros (sattrs & o & Hs & Ho & attrs & Ha & (vh & Hh & Lh) & Ht & Hk & Hp
          & (va & Hasp & La) & (vf & Hf & Lf) & Hm & Hl & Hr & Hd).
  exists sattrs, o. split; [apply read_app; exact Hs|]. split; [exact Ho|].
  exists attrs. split; [apply read_app; exact Ha|].
  repeat split; try assumption;
    eexists; (split; [eassumption | apply list_or_None_app; assumption]).
Qed.

Lemma traverse_as_str (l : list string) :
  Heap.traverse Heap.as_str (map Heap.VStr l) = Some l.
Proof.
  induction l as [|x l IH]; [reflexivity|].
  cbn [map Heap.traverse Heap.as_str]. rewrite IH. reflexivity.
Qed.

(** ** The expressions of the method, one by one *)

Section Expressions.
Variables (h : Heap.heap) (self o : Heap.loc).
Variables (sattrs attrs : list (string * Heap.pyval)).
Hypothesis Hs : Heap.read h self = Some (Heap.OInstance sattrs).
Hypothesis Ho : PyDict.get "_options" sattrs = Some (Heap.VRef o).
Hypothesis Ha : Heap.read h o = Some (Heap.OInstance attrs).

Lemma option_attr_eq (ext : Heap.heap) (name : string) (v : Heap.pyval) :
  PyDict.get name attrs = Some v ->
  Heap.option_attr (Heap.VRef self) name (h ++ ext) = Some (v, h ++ ext).
Proof.
  intros Hv.
  unfold Heap.option_attr, Heap.getattr, Heap.bind, Heap.load, Heap.ret.
  rewrite (read_app _ ext _ _ Hs), Ho, (read_app _ ext _ _ Ha), Hv. reflexivity.
Qed.

(** [bool(self._options.name)] for a [store_true] flag. *)
Lemma flag_eq (ext : Heap.heap) (name : string) (b : bool) :
  PyDict.get name attrs = Some (Heap.VBool b) ->
  Heap.bind (Heap.option_attr (Heap.VRef self) name) (fun v => Heap.truth v) (h ++ ext)
  = Some (b, h ++ ext).
Proof.
  intros Hv. rewrite (bind_value _ _ _ _ _ (option_attr_eq ext name _ Hv)).
  reflexivity.
Qed.

Lemma not_flag_eq (ext : Heap.heap) (name : string) (b : bool) :
  PyDict.get name attrs = Some (Heap.VBool b) ->
  Heap.bind (Heap.option_attr (Heap.VRef self) name)
            (fun v => Heap.bind (Heap.truth v) (fun t => Heap.ret (negb t))) (h ++ ext)
  = Some (negb b, h ++ ext).
Proof.
  intros Hv. rewrite (bind_value _ _ _ _ _ (option_attr_eq ext name _ Hv)).
  reflexivity.
Qed.

Lemma truth_list (ext : Heap.heap) (x : option (list string)) (v : Heap.pyval) :
  Heap.list_or_None h x v ->
  Heap.truth v (h ++ ext)
  = Some (match x with Some (_ :: _) => true | _ => false end, h ++ ext).
Proof.
  destruct x as [l|]; cbn [Heap.list_or_None].
  - intros (at_list & -> & H).
    unfold Heap.truth, Heap.bind, Heap.load, Heap.ret.
    rewrite (read_app _ ext _ _ H). destruct l; reflexivity.
  - intros ->. reflexivity.
Qed.

(** [self._options.name[0] if self._options.name else None], on a list. *)
Lemma first_item_eq (ext : Heap.heap) (name : string)
      (x : option (list string)) (v : Heap.pyval) :
  PyDict.get name attrs = Some v -> Heap.list_or_None h x v ->
  Heap.conditional (Heap.option_attr (Heap.VRef self) name)
    (Heap.bind (Heap.option_attr (Heap.VRef self) name) (fun x => Heap.subscript0 x))
    (Heap.ret Heap.VNone) (h ++ ext)
  = Some (Heap.first_item x, h ++ ext).
Proof.
  intros Hv Hx. unfold Heap.conditional.
  rewrite (bind_value _ _ _ _ _ (option_attr_eq ext name _ Hv)).
  rewrite (bind_value _ _ _ _ _ (truth_list ext x v Hx)).
  destruct x as [[|first l]|]; try reflexivity.
  rewrite (bind_value _ _ _ _ _ (option_attr_eq ext name _ Hv)).
  destruct Hx as (at_list & -> & H).
  unfold Heap.subscript0, Heap.bind, Heap.load, Heap.ret.
  rewrite (read_app _ ext _ _ H). reflexivity.
Qed.

(** The same on a string. *)
Lemma first_character_eq (ext : Heap.heap) (name : string) (x : option string) :
  PyDict.get name attrs = Some (Heap.str_or_None x) ->
  Heap.conditional (Heap.option_attr (Heap.VRef self) name)
    (Heap.bind (Heap.option_attr (Heap.VRef self) name) (fun x => Heap.subscript0 x))
    (Heap.ret Heap.VNone) (h ++ ext)
  = Some (Heap.first_character x, h ++ ext).
Proof.
  intros Hv. unfold Heap.conditional.
  rewrite (bind_value _ _ _ _ _ (option_attr_eq ext name _ Hv)).
  destruct x as [[|c r]|]; try reflexivity.
  unfold Heap.str_or_None, Heap.truth. rewrite (bind_value _ _ _ _ _ eq_refl).
  cbn [PyStr.truthy].
  rewrite (bind_value _ _ _ _ _ (option_attr_eq ext name _ Hv)).
  reflexivity.
Qed.

(** [",".join(self._options.name) if self._options.name else None] *)
Lemma joined_eq (ext : Heap.heap) (name : string)
      (x : option (list string)) (v : Heap.pyval) :
  PyDict.get name attrs = Some v -> Heap.list_or_None h x v ->
  Heap.conditional (Heap.option_attr (Heap.VRef self) name)
    (Heap.bind (Heap.option_attr (Heap.VRef self) name) (fun x => Heap.join "," x))
    (Heap.ret Heap.VNone) (h ++ ext)
  = Some (Heap.joined x, h ++ ext).
Proof.
  intros Hv Hx. unfold Heap.conditional.
  rewrite (bind_value _ _ _ _ _ (option_attr_eq ext name _ Hv)).
  rewrite (bind_value _ _ _ _ _ (truth_list ext x v Hx)).
  destruct x as [[|first l]|]; try reflexivity.
  rewrite (bind_value _ _ _ _ _ (option_attr_eq ext name _ Hv)).
  destruct Hx as (at_list & -> & H).
  unfold Heap.join, Heap.bind, Heap.load, Heap.ret.
  rewrite (read_app _ ext _ _ H), traverse_as_str. reflexivity.
Qed.

(** [self._options.name if self._options.name else None] *)
Lemma unless_empty_eq (ext : Heap.heap) (name : string)
      (x : option (list string)) (v : Heap.pyval) :
  PyDict.get name attrs = Some v -> Heap.list_or_None h x v ->
  Heap.conditional (Heap.option_attr (Heap.VRef self) name)
    (Heap.option_attr (Heap.VRef self) name)
    (Heap.ret Heap.VNone) (h ++ ext)
  = Some (Heap.unless_empty x v, h ++ ext).
Proof.
  intros Hv Hx. unfold Heap.conditional.
  rewrite (bind_value _ _ _ _ _ (option_attr_eq ext name _ Hv)).
  rewrite (bind_value _ _ _ _ _ (truth_list ext x v Hx)).
  destruct x as [[|first l]|]; try reflexivity.
  apply option_attr_eq. exact Hv.
Qed.

End Expressions.

(** ** Dictionaries on the heap and the JSON objects they unfold to *)

Lemma set_fresh {V : Type} (k : string) (v : V) (d : PyDict.dict V) :
  ~ In k (map fst d) -> PyDict.set k v d = d ++ [(k, v)].
Proof.
  induction d as [|[k' v'] d IH]; [reflexivity|].
  cbn [map fst In PyDict.set app]. intros H.
  destruct (String.eqb_spec k k') as [->|_]; [exfalso; apply H; left; reflexivity|].
  rewrite IH; [reflexivity|]. intros Hin. apply H. right. exact Hin.
Qed.

Lemma update_distinct {V : Type} (l d : PyDict.dict V) :
  NoDup (map fst (d ++ l)) -> PyDict.update d l = d ++ l.
Proof.
  unfold PyDict.update. revert d. induction l as [|[k v] l IH]; intros d H.
  - rewrite app_nil_r. reflexivity.
  - cbn [fold_left fst snd]. rewrite set_fresh.
    + rewrite IH; rewrite <- app_assoc; [reflexivity | exact H].
    + rewrite map_app in H. cbn [map fst] in H.
      apply NoDup_remove_2 in H. intros Hin. apply H. apply in_or_app. left. exact Hin.
Qed.

(** A display with distinct keys holds its items as written. *)
Lemma literal_distinct {V : Type} (l : PyDict.dict V) :
  NoDup (map fst l) -> PyDict.literal l = l.
Proof. intros H. unfold PyDict.literal. rewrite update_distinct; [reflexivity | exact H]. Qed.

Lemma filter_keys_distinct {V : Type} (f : string * V -> bool) (l : PyDict.dict V) :
  NoDup (map fst l) -> NoDup (map fst (filter f l)).
Proof.
  induction l as [|kv l IH]; [intros H; exact H|].
  cbn [map filter]. intros H. inversion H as [|? ? Hin Hl]; subst.
  destruct (f kv); [|exact (IH Hl)].
  cbn [map]. constructor; [|exact (IH Hl)].
  intros Hk. apply Hin. apply in_map_iff in Hk as (x & Hx & Hf).
  apply filter_In in Hf as [Hf _]. apply in_map_iff. exists x. split; assumption.
Qed.

Lemma traverse_represented (depth : nat) (h : Heap.heap)
      (items : list (string * Heap.pyval)) (members : list (string * Json.value)) :
  Heap.represented depth h items members ->
  Heap.traverse (fun kv => option_map (pair (fst kv)) (Heap.unfolding depth h (snd kv)))
                items
  = Some members.
Proof.
  induction 1 as [|[k v] [k' j] items members [Hk Hv] _ IH]; [reflexivity|].
  cbn [fst snd] in Hk, Hv. subst k'.
  cbn [Heap.traverse fst snd]. rewrite Hv, IH. reflexivity.
Qed.

Lemma traverse_strings (depth : nat) (h : Heap.heap) (l : list string) :
  Heap.traverse (Heap.unfolding depth h) (map Heap.VStr l) = Some (map Json.Str l).
Proof.
  induction l as [|x l IH]; [reflexivity|].
  cbn [map Heap.traverse]. rewrite IH. destruct depth; reflexivity.
Qed.

Lemma set_represented (depth : nat) (h : Heap.heap) (k : string)
      (v : Heap.pyval) (j : Json.value)
      (items : list (string * Heap.pyval)) (members : list (string * Json.value)) :
  Heap.unfolding depth h v = Some j ->
  Heap.represented depth h items members ->
  Heap.represented depth h (PyDict.set k v items) (PyDict.set k j members).
Proof.
  intros Hv. induction 1 as [|[k1 v1] [k2 j2] items members [Hk H1] Hrest IH].
  - repeat constructor. exact Hv.
  - cbn [fst snd] in Hk, H1. subst k2. cbn [PyDict.set].
    destruct (String.eqb k k1).
    + constructor; [split; [reflexivity | exact Hv] | exact Hrest].
    + constructor; [split; [reflexivity | exact H1] | exact IH].
Qed.

Lemma update_represented (depth : nat) (h : Heap.heap)
      (others : list (string * Heap.pyval)) (jothers : list (string * Json.value)) :
  Heap.represented depth h others jothers ->
  forall items members,
    Heap.represented depth h items members ->
    Heap.represented depth h (PyDict.update items others) (PyDict.update members jothers).
Proof.
  unfold PyDict.update.
  induction 1 as [|[k v] [k' j] others jothers [Hk Hv] _ IH]; intros items members H;
    [exact H|].
  cbn [fst snd] in Hk, Hv. subst k'. cbn [fold_left fst snd].
  apply IH. apply set_represented; assumption.
Qed.

Lemma filter_represented (depth : nat) (h : Heap.heap)
      (items : list (string * Heap.pyval)) (members : list (string * Json.value)) :
  Heap.represented depth h items members ->
  Heap.represented depth h
    (filter (fun kv => Heap.is_not_None (snd kv)) items)
    (filter (fun kv => is_not_None (snd kv)) members).
Proof.
  induction 1 as [|[k v] [k' j] items members [Hk Hv] _ IH]; [constructor|].
  cbn [fst snd] in Hk, Hv. subst k'. cbn [filter fst snd].
  assert (E : Heap.is_not_None v = is_not_None j).
  { destruct depth, v as [|b|s|l]; cbn [Heap.unfolding] in Hv;
      try (injection Hv as Hj; rewrite <- Hj; reflexivity); try discriminate.
    destruct (Heap.read h l) as [[items'|items'|?]|]; try discriminate;
      cbn [Heap.is_not_None];
      match type of Hv with
      | option_map _ ?t = _ =>
          destruct t; [injection Hv as Hj; rewrite <- Hj; reflexivity | discriminate]
      end. }
  rewrite E. destruct (is_not_None j); [|exact IH].
  constructor; [split; [reflexivity | exact Hv] | exact IH].
Qed.

Lemma bind_load_fresh {B : Type} (h ext : Heap.heap) (k : nat)
      (f : Heap.object -> Heap.Py B) :
  Heap.bind (Heap.load (Heap.VRef (length h + k))) f (h ++ ext)
  = match nth_error ext k with
    | Some o => f o (h ++ ext)
    | None => None
    end.
Proof.
  unfold Heap.bind, Heap.load. rewrite read_fresh.
  destruct (nth_error ext k); reflexivity.
Qed.

Lemma bind_assoc {A B C : Type} (m : Heap.Py A) (f : A -> Heap.Py B)
      (k : B -> Heap.Py C) (h : Heap.heap) :
  Heap.bind (Heap.bind m f) k h = Heap.bind m (fun x => Heap.bind (f x) k) h.
Proof. unfold Heap.bind. destruct (m h) as [[a h1]|]; reflexivity. Qed.

Lemma bind_store {B : Type} (h : Heap.heap) (l : Heap.loc) (o : Heap.object)
      (f : unit -> Heap.Py B) :
  Heap.bind (Heap.store (Heap.VRef l) o) f h = f tt (Heap.write h l o).
Proof. reflexivity. Qed.


Lemma unfolding_None (depth : nat) (h : Heap.heap) :
  Heap.unfolding depth h Heap.VNone = Some Json.Null.
Proof. destruct depth; reflexivity. Qed.

Lemma unfolding_bool (depth : nat) (h : Heap.heap) (b : bool) :
  Heap.unfolding depth h (Heap.VBool b) = Some (Json.Bool b).
Proof. destruct depth; reflexivity. Qed.

Lemma unfolding_str (depth : nat) (h : Heap.heap) (s : string) :
  Heap.unfolding depth h (Heap.VStr s) = Some (Json.Str s).
Proof. destruct depth; reflexivity. Qed.

Lemma unfolding_ref (depth : nat) (h : Heap.heap) (l : Heap.loc) :
  Heap.unfolding (S depth) h (Heap.VRef l)
  = match Heap.read h l with
    | Some (Heap.OList items) =>
        option_map Json.List (Heap.traverse (Heap.unfolding depth h) items)
    | Some (Heap.ODict items) =>
        option_map Json.Dict
          (Heap.traverse
             (fun kv => option_map (pair (fst kv)) (Heap.unfolding depth h (snd kv)))
             items)
    | _ => None
    end.
Proof. reflexivity. Qed.

Ltac distinct_keys :=
  cbn [map fst]; repeat constructor; cbn [In]; intuition discriminate.

Tactic Notation "run" open_constr(H) := erewrite (bind_value _ _ _ _ _ H).

(** One call: the payload is the serialised subscription, and the heap
    after it is the heap before it with new objects at its end. *)
Lemma get_ris_params_call (h : Heap.heap) (self : Heap.loc) (args : Namespace) :
  3 <= recursion_limit ->
  Heap.reflects h self args ->
  exists fresh,
    Heap._get_ris_params (Heap.VRef self) h
    = Some (Json.dumps (ris_subscribe args), h ++ fresh).
Proof.
  intros Hlimit (sattrs & o & Hs & Ho & attrs & Ha & (vh & Hh & Lh) & Ht & Hk & Hp
                 & (va & Hasp & La) & (vf & Hf & Lf) & Hm & Hl & Hr & Hd).
  eexists.
  replace (Heap._get_ris_params (Heap.VRef self) h)
    with (Heap._get_ris_params (Heap.VRef self) (h ++ []))
    by (rewrite app_nil_r; reflexivity).
  unfold Heap._get_ris_params, Heap.dict_display.
  run (flag_eq h self o sattrs attrs Hs Ho Ha _ _ _ Hr).
  run (alloc_app h [] (Heap.ODict (PyDict.literal
                                     [("includeRaw", Heap.VBool (include_raw args))]))).
  cbn [app length].
  run (flag_eq h self o sattrs attrs Hs Ho Ha _ _ _ Hm).
  run (flag_eq h self o sattrs attrs Hs Ho Ha _ _ _ Hl).
  run (not_flag_eq h self o sattrs attrs Hs Ho Ha _ _ _ Hd).
  rewrite (bind_value _ _ _ _ _ (alloc_app h _ _)). cbn [app length].
  run (first_item_eq h self o sattrs attrs Hs Ho Ha _ _ _ _ Hh Lh).
  run (option_attr_eq h self o sattrs attrs Hs Ho Ha _ _ _ Ht).
  run (first_character_eq h self o sattrs attrs Hs Ho Ha _ _ _ Hk).
  run (option_attr_eq h self o sattrs attrs Hs Ho Ha _ _ _ Hp).
  run (joined_eq h self o sattrs attrs Hs Ho Ha _ _ _ _ Hasp La).
  run (unless_empty_eq h self o sattrs attrs Hs Ho Ha _ _ _ _ Hf Lf).
  rewrite (bind_value _ _ _ _ _ (alloc_app h _ _)). cbn [app length].
  unfold Heap.without_None.
  rewrite bind_assoc, bind_load_fresh. cbn [nth_error].
  rewrite (bind_value _ _ _ _ _ (alloc_app h _ _)). cbn [app length].
  unfold Heap.update.
  rewrite bind_assoc, bind_load_fresh. cbn [nth_error].
  rewrite bind_assoc, bind_load_fresh. cbn [nth_error].
  rewrite bind_store.
  rewrite write_fresh. cbn [Heap.write].
  rewrite (bind_value _ _ _ _ _ (alloc_app h _ _)). cbn [app length].
  unfold Heap.dumps.
  match goal with
  | |- match Heap.unfolding _ ?G _ with _ => _ end = _ =>
      assert (E : Heap.unfolding recursion_limit G (Heap.VRef (length h + 4))
                  = Some (ris_subscribe args))
  end; [|rewrite E; reflexivity].
  destruct recursion_limit as [|[|[|depth]]]; try lia. clear Hlimit.
  match goal with
  | |- Heap.unfolding _ ?G _ = _ =>
      assert (Hdata : Heap.unfolding (S (S depth)) G (Heap.VRef (length h + 1))
                      = Some (Json.Dict (ris_params args)))
  end.
  { rewrite unfolding_ref, read_fresh. cbn [nth_error].
    rewrite (traverse_represented _ _ _ (ris_params args)); [reflexivity|].
    unfold ris_params. apply update_represented.
    - rewrite (literal_distinct (filter _ _))
        by (apply filter_keys_distinct; rewrite literal_distinct by distinct_keys;
            distinct_keys).
      apply filter_represented. unfold optional_params.
      rewrite !literal_distinct by distinct_keys.
      repeat (constructor; [split; [reflexivity|] |]); cbn [snd];
        [ | | | | | | constructor].
      + destruct (filter_host args) as [[|? ?]|]; reflexivity.
      + destruct (filter_type args); reflexivity.
      + destruct (filter_key args) as [key|]; [|reflexivity].
        cbn [Heap.first_character]. destruct (PyStr.first_char key); reflexivity.
      + destruct (filter_peer args); reflexivity.
      + destruct (filter_aspath args) as [[|? ?]|]; reflexivity.
      + destruct (filter_prefix args) as [[|x l]|]; try reflexivity.
        destruct Lf as (at_list & -> & H).
        cbn [Heap.unless_empty]. rewrite unfolding_ref.
        rewrite (read_app _ _ _ _ H), traverse_strings. reflexivity.
    - rewrite !literal_distinct by distinct_keys.
      repeat (constructor; [split; [reflexivity|] |]); cbn [snd];
        [ | | | | constructor]; try apply unfolding_bool.
      rewrite unfolding_ref, read_fresh. cbn [nth_error].
      rewrite (literal_distinct [("includeRaw", _)]) by distinct_keys.
      cbn [Heap.traverse fst snd]. rewrite unfolding_bool. reflexivity. }
  rewrite unfolding_ref, read_fresh. cbn [nth_error].
  rewrite (literal_distinct [("type", _); ("data", _)]) by distinct_keys.
  rewrite (traverse_represented _ _ _ [("type", Json.Str "ris_subscribe");
                                       ("data", Json.Dict (ris_params args))]);
    [reflexivity|].
  constructor; [split; reflexivity|].
  constructor; [split; [reflexivity | exact Hdata] | constructor].
Qed.

(** C7. On a heap that holds a streamer whose [_options] is the namespace
    [args], any number of calls of [_get_ris_params] in a row all return,
    and return the same string: the serialised subscription of [args],
    though every call but the first runs on a heap that the calls before
    it have changed. What the calls change is new: the heap afterwards is
    the heap before with the objects that the calls created at its end
    (the [params.update] changes a dictionary that the call itself
    created), so every object that existed, the namespace and its lists
    among them, is as it was, and the streamer still holds [args]. The
    string is the one that the coroutines send. *)
Theorem get_ris_params_pure (h : Heap.heap) (self : Heap.loc) (args : Namespace)
        (n : nat) :
  3 <= recursion_limit ->
  Heap.reflects h self args ->
  exists fresh,
    Heap.build_times n (Heap.VRef self) h
    = Some (repeat (Json.dumps (ris_subscribe args)) n, h ++ fresh)
    /\ Heap.reflects (h ++ fresh) self args
    /\ (forall l o, Heap.read h l = Some o -> Heap.read (h ++ fresh) l = Some o)
    /\ (forall streamer, _options streamer = args ->
          _get_ris_params streamer
          = (Return (Json.dumps (ris_subscribe args)), streamer, [])).
Proof.
  intros Hlimit. revert h. induction n as [|n IH]; intros h Hargs.
  - exists []. rewrite app_nil_r.
    split; [reflexivity|]. split; [exact Hargs|]. split; [intros l o H; exact H|].
    intros streamer <-. reflexivity.
  - destruct (get_ris_params_call h self args Hlimit Hargs) as (new & Hcall).
    destruct (IH (h ++ new) (reflects_app h new self args Hargs))
      as (fresh & Hrest & Hthen & _ & Hsent).
    exists (new ++ fresh). rewrite app_assoc. repeat split.
    + cbn [Heap.build_times repeat].
      rewrite (bind_value _ _ _ _ _ Hcall), (bind_value _ _ _ _ _ Hrest). reflexivity.
    + exact Hthen.
    + intros l o H. rewrite <- app_assoc. apply read_app. exact H.
    + exact Hsent.
Qed.

End HeapFacts.

Lemma get_ris_params_pure_witness :
  3 <= @recursion_limit cpython_recursion
  /\ Heap.reflects Heap.round_trip_heap 0 round_trip_options
  /\ exists fresh,
       @Heap.build_times cpython_recursion 2 (Heap.VRef 0) Heap.round_trip_heap
       = Some (repeat (Json.dumps (ris_subscribe round_trip_options)) 2,
               (Heap.round_trip_heap ++ fresh)%list)
       /\ Heap.reflects (Heap.round_trip_heap ++ fresh)%list 0 round_trip_options.
Proof.
  assert (Hlimit : 3 <= @recursion_limit cpython_recursion) by (cbn; lia).
  assert (Hargs : Heap.reflects Heap.round_trip_heap 0 round_trip_options).
  { exists [("_options", Heap.VRef 1); ("_ws", Heap.VNone)], 1.
    split; [reflexivity|]. split; [reflexivity|].
    eexists. split; [reflexivity|].
    repeat split; try reflexivity;
      eexists; (split; [reflexivity|]);
      try reflexivity; eexists; split; reflexivity. }
  split; [exact Hlimit|]. split; [exact Hargs|].
  destruct (@get_ris_params_pure cpython_recursion Heap.round_trip_heap 0
              round_trip_options 2 Hlimit Hargs) as (fresh & H1 & H2 & _).
  exists fresh. split; [exact H1 | exact H2].
Defined.

(** The specification's round trip on the heap: the call leaves the four
    objects that it found as they were and adds five, of which the second,
    [params], was updated in place and holds under "prefix" a reference to
    the list of the namespace, at location 3, not a copy of it. *)
Example round_trip_on_heap :
  @Heap._get_ris_params cpython_recursion (Heap.VRef 0) Heap.round_trip_heap
  = Some (Json.dumps (ris_subscribe round_trip_options),
          (Heap.round_trip_heap
           ++ [ Heap.ODict [("includeRaw", Heap.VBool false)];
                Heap.ODict [ ("socketOptions", Heap.VRef 4);
                             ("moreSpecific", Heap.VBool false);
                             ("lessSpecific", Heap.VBool false);
                             ("autoReconnect", Heap.VBool true);
                             ("host", Heap.VStr "rrc01");
                             ("peer", Heap.VStr "192.0.2.1");
                             ("prefix", Heap.VRef 3) ];
                Heap.ODict [ ("host", Heap.VStr "rrc01"); ("type", Heap.VNone);
                             ("require", Heap.VNone);
                             ("peer", Heap.VStr "192.0.2.1");
                             ("path", Heap.VNone); ("prefix", Heap.VRef 3) ];
                Heap.ODict [ ("host", Heap.VStr "rrc01");
                             ("peer", Heap.VStr "192.0.2.1");
                             ("prefix", Heap.VRef 3) ];
                Heap.ODict [ ("type", Heap.VStr "ris_subscribe");
                             ("data", Heap.VRef 5) ] ])%list).
Proof. vm_compute. reflexivity. Qed.

(* ================================================================== *)
(** ** The streaming coroutine and the run loop *)
(* ================================================================== *)

Section Streaming.

(** The handling of one message, after it was received. *)
Lemma handle_arrival_eq (a : arrival) (self : RipeRisStreamer) :
  except_ValueError
    (print (message a) (print_result a))
    (fun e => print ("Error processing message: " ++ e) (handler_print_result a)) self
  = match arrival_exception a with
    | None => (Return tt, self, [Print (arrival_line a)])
    | Some e => (Raise e, self, [])
    end.
Proof.
  unfold except_ValueError, print, arrival_exception, arrival_line, emit, raise.
  destruct (print_result a) as [[|msg|msg|name]|]; try reflexivity.
  destruct (handler_print_result a); reflexivity.
Qed.

Lemma reception_loop_eq (ws : WebSocket) (arrivals : list arrival)
      (self : RipeRisStreamer) :
  reception_loop ws arrivals self
  = (match reception_exception arrivals with
     | None => Return tt
     | Some e => Raise e
     end, self, reception_trace ws arrivals).
Proof.
  induction arrivals as [|a rest IH]; [reflexivity|].
  cbn [reception_loop reception_exception reception_trace].
  unfold bind at 1. unfold emit at 1. cbv beta iota.
  unfold bind at 1. rewrite handle_arrival_eq.
  destruct (arrival_exception a) as [e|]; [reflexivity|].
  rewrite IH. reflexivity.
Qed.

(** One call of [start_streaming], spelled out. *)
Lemma start_streaming_eq (c : connection) (self : RipeRisStreamer) :
  start_streaming c self
  = (match streaming_exception c with
     | None => Return tt
     | Some e => Raise e
     end,
     streamed_state c self,
     streamed_trace c self).
Proof.
  unfold start_streaming, streaming_exception, streamed_state, streamed_trace,
    streaming_trace.
  destruct c as [ws [ce|] [se|] [le|] arrivals [ee|] pe];
    cbv [bind finally emit get_self set_ws await print raise ret
         _get_ris_params bound_to conn_ws connect_result send_result
         listening_print incoming stream_end];
    try reflexivity;
    rewrite reception_loop_eq;
    destruct (reception_exception arrivals); cbv beta iota;
    rewrite ?app_nil_r; reflexivity.
Qed.

Lemma start_streaming_options (c : connection) (self : RipeRisStreamer) :
  _options (snd (fst (start_streaming c self))) = _options self.
Proof.
  rewrite start_streaming_eq. unfold streamed_state.
  destruct (connect_result c); reflexivity.
Qed.

Lemma protocol_run_app (payload : string) (p : phase) (t1 t2 : list event) :
  protocol_run payload p (t1 ++ t2)%list
  = match protocol_run payload p t1 with
    | Some p' => protocol_run payload p' t2
    | None => None
    end.
Proof.
  revert p. induction t1 as [|e t1 IH]; simpl; intros p; [reflexivity|].
  destruct (protocol_step payload p e); [apply IH | reflexivity].
Qed.

Lemma reception_trace_protocol (payload : string) (ws : WebSocket)
      (arrivals : list arrival) :
  protocol_run payload (Subscribed ws) (reception_trace ws arrivals)
  = Some (Subscribed ws)
  /\ filter is_Send (reception_trace ws arrivals) = []
  /\ filter is_Opened (reception_trace ws arrivals) = [].
Proof.
  induction arrivals as [|a rest (IH1 & IH2 & IH3)]; [repeat split|].
  cbn [reception_trace]. destruct (arrival_exception a);
    cbn [protocol_run protocol_step filter is_Send is_Opened];
    rewrite Nat.eqb_refl; repeat split; assumption.
Qed.

Lemma streaming_trace_protocol (c : connection) (self : RipeRisStreamer) :
  let payload := Json.dumps (ris_subscribe (_options self)) in
  protocol_run payload NoConnection (streaming_trace c self) = Some NoConnection
  /\ filter is_Send (streaming_trace c self) = [Send (conn_ws c) payload]
  /\ filter is_Opened (streaming_trace c self) = [Opened (conn_ws c)].
Proof.
  intros payload. unfold streaming_trace. fold payload.
  destruct (reception_trace_protocol payload (conn_ws c) (incoming c)) as (R1 & R2 & R3).
  cbn [app protocol_run protocol_step filter is_Send is_Opened].
  rewrite Nat.eqb_refl, String.eqb_refl. cbn [andb].
  destruct (send_result c) as [e|]; [|destruct (listening_print c) as [e|]].
  - cbn. rewrite Nat.eqb_refl. repeat split.
  - cbn. rewrite Nat.eqb_refl. repeat split.
  - cbn [app protocol_run protocol_step filter is_Send is_Opened].
    rewrite protocol_run_app, R1, !filter_app, R2, R3.
    cbn. rewrite Nat.eqb_refl. repeat split.
Qed.

Lemma main_loop_cons (c : connection) (rest : list connection)
      (streamer : RipeRisStreamer) :
  main_loop (c :: rest) streamer
  = if negb (disable_auto_reconnect (_options streamer)) then
      match start_streaming c streamer with
      | (Raise CancelledError, streamer1, t) => (Exited, streamer1, t)
      | (Raise (ConnectionError e), streamer1, t) =>
          match error_print c with
          | None =>
              match main_loop rest streamer1 with
              | (r, streamer2, t2) =>
                  (r, streamer2,
                   (t ++ Print ("Streamer encountered an error: " ++ e) :: t2)%list)
              end
          | Some CancelledError => (Exited, streamer1, t)
          | Some e2 => (Propagated e2, streamer1, t)
          end
      | (Raise e, streamer1, t) => (Propagated e, streamer1, t)
      | (Return _, streamer1, t) =>
          match main_loop rest streamer1 with
          | (r, streamer2, t2) => (r, streamer2, (t ++ t2)%list)
          end
      end
    else (Exited, streamer, []).
Proof. reflexivity. Qed.

(** One turn of the loop of [main] with auto-reconnect left on, by the
    exception that the call of [start_streaming] ends with. *)
Lemma main_loop_turn (c : connection) (rest : list connection) (s : RipeRisStreamer) :
  disable_auto_reconnect (_options s) = false ->
  main_loop (c :: rest) s
  = let s1 := streamed_state c s in
    let t := streamed_trace c s in
    let next := main_loop rest s1 in
    match streaming_exception c with
    | None => (outcome_of next, state_of next, (t ++ trace_of next)%list)
    | Some CancelledError => (Exited, s1, t)
    | Some (ConnectionError msg) =>
        match error_print c with
        | None =>
            (outcome_of next, state_of next,
             (t ++ Print ("Streamer encountered an error: " ++ msg)
                :: trace_of next)%list)
        | Some CancelledError => (Exited, s1, t)
        | Some e2 => (Propagated e2, s1, t)
        end
    | Some e => (Propagated e, s1, t)
    end.
Proof.
  intros Hflag. rewrite main_loop_cons, Hflag. cbn [negb].
  rewrite start_streaming_eq. cbv zeta.
  unfold outcome_of, state_of, trace_of.
  destruct (streaming_exception c) as [[|msg|msg|name]|]; cbv beta iota;
    try reflexivity.
  - destruct (error_print c) as [[|m|m|n]|]; try reflexivity.
    destruct (main_loop rest (streamed_state c s)) as [[? ?] ?]; reflexivity.
  - destruct (main_loop rest (streamed_state c s)) as [[? ?] ?]; reflexivity.
Qed.

Lemma streamed_state_options (c : connection) (s : RipeRisStreamer) :
  _options (streamed_state c s) = _options s
  /\ _sslcontext (streamed_state c s) = _sslcontext s.
Proof. unfold streamed_state. destruct (connect_result c); split; reflexivity. Qed.

Lemma well_subscribed_app (payload : string) (t1 t2 : list event) :
  well_subscribed payload t1 -> well_subscribed payload t2 ->
  well_subscribed payload (t1 ++ t2)%list.
Proof.
  intros (A1 & A2 & A3) (B1 & B2 & B3). repeat split.
  - rewrite protocol_run_app, A1. exact B1.
  - rewrite !filter_app, !length_app. lia.
  - apply Forall_app. split; assumption.
Qed.

Lemma well_subscribed_silent (payload : string) (e : event) (t : list event) :
  protocol_step payload NoConnection e = Some NoConnection ->
  is_Send e = false -> is_Opened e = false ->
  well_subscribed payload t -> well_subscribed payload (e :: t).
Proof.
  intros He Hs Ho (B1 & B2 & B3). repeat split.
  - simpl. rewrite He. exact B1.
  - simpl. rewrite Hs, Ho. exact B2.
  - constructor; [rewrite Hs; discriminate | exact B3].
Qed.

Lemma well_subscribed_nil (payload : string) : well_subscribed payload [].
Proof. repeat split. constructor. Qed.

Lemma streaming_trace_well_subscribed (c : connection) (self : RipeRisStreamer) :
  well_subscribed (Json.dumps (ris_subscribe (_options self))) (streaming_trace c self).
Proof.
  destruct (streaming_trace_protocol c self) as (S1 & S2 & S3).
  repeat split; [exact S1 | rewrite S2, S3; reflexivity |].
  apply Forall_forall. intros e He Hs.
  assert (Hin : In e (filter is_Send (streaming_trace c self)))
    by (apply filter_In; split; assumption).
  rewrite S2 in Hin. destruct Hin as [<- | []]. eexists. reflexivity.
Qed.

Lemma main_loop_protocol (args : Namespace) (connections : list connection) :
  forall self, _options self = args ->
    well_subscribed (Json.dumps (ris_subscribe args))
                    (trace_of (main_loop connections self)).
Proof.
  induction connections as [|c rest IH]; intros self Hself.
  - simpl. destruct (disable_auto_reconnect (_options self)); apply well_subscribed_nil.
  - destruct (disable_auto_reconnect (_options self)) eqn:Hflag.
    + rewrite main_loop_cons, Hflag. apply well_subscribed_nil.
    + rewrite (main_loop_turn c rest self Hflag). cbv zeta.
      assert (Ht : well_subscribed (Json.dumps (ris_subscribe args))
                     (streamed_trace c self)).
      { unfold streamed_trace. destruct (connect_result c).
        - repeat apply well_subscribed_silent; try reflexivity.
          apply well_subscribed_nil.
        - rewrite <- Hself. apply streaming_trace_well_subscribed. }
      assert (Hnext : well_subscribed (Json.dumps (ris_subscribe args))
                        (trace_of (main_loop rest (streamed_state c self)))).
      { apply IH. rewrite (proj1 (streamed_state_options c self)). exact Hself. }
      clear IH. revert Ht Hnext.
      generalize (streamed_trace c self) (Json.dumps (ris_subscribe args))
                 (main_loop rest (streamed_state c self)).
      intros t payload next Ht Hnext.
      destruct (streaming_exception c) as [[|msg|msg|name]|];
        [| destruct (error_print c) as [[|m|m|n]|] | | |];
        unfold trace_of in *; cbn [snd]; try exact Ht;
        apply well_subscribed_app; try exact Ht; try exact Hnext.
      apply well_subscribed_silent; try reflexivity. exact Hnext.
Qed.

(** C8. On every connection that [start_streaming] opens, the payload of
    [_get_ris_params] is sent exactly once: the [Send] is the first
    operation on the connection after it opens, no message is received
    before it, and no second [Send] follows; a call whose connection does
    not open sends nothing. The same holds along every run of the loop of
    [main], whatever the connections do. *)
Theorem subscription_sent_once_per_connection (self : RipeRisStreamer) :
  let payload := Json.dumps (ris_subscribe (_options self)) in
  (forall c,
      let t := trace_of (start_streaming c self) in
      protocol_run payload NoConnection t = Some NoConnection
      /\ filter is_Send t
         = match connect_result c with
           | None => [Send (conn_ws c) payload]
           | Some _ => []
           end
      /\ filter is_Opened t
         = match connect_result c with
           | None => [Opened (conn_ws c)]
           | Some _ => []
           end)
  /\ (forall connections,
         let t := trace_of (main_loop connections self) in
         protocol_run payload NoConnection t = Some NoConnection
         /\ length (filter is_Send t) = length (filter is_Opened t)
         /\ Forall (fun e => is_Send e = true -> exists ws, e = Send ws payload) t).
Proof.
  intros payload. split.
  - intros c t. subst t. rewrite start_streaming_eq.
    unfold trace_of, streamed_trace. cbn [snd].
    destruct (connect_result c) as [e|].
    + repeat split.
    + exact (streaming_trace_protocol c self).
  - intros connections. exact (main_loop_protocol _ connections self eq_refl).
Qed.

End Streaming.

(** C1, the code with [-d]: whatever the other options are and whatever
    the network would do, [main] leaves its loop at once: it returns with
    no operation performed, no connection attempt among them, and the
    streamer as it was built. *)
Theorem main_never_connects_when_reconnect_disabled
        (args : Namespace) (connections : list connection) :
  main (with_disable_auto_reconnect args) connections
  = (Exited, __init__ (with_disable_auto_reconnect args), []).
Proof. destruct connections; reflexivity. Qed.

(** Without [-d], the same command line connects as soon as a connection
    is on offer. *)
Example main_connects_when_reconnect_enabled :
  let c := {| conn_ws := 1; connect_result := None; send_result := None;
              listening_print := None;
              incoming := [{| message := "m"; print_result := None;
                              handler_print_result := None |}];
              stream_end := Some CancelledError; error_print := None |} in
  filter is_Opened (trace_of (main no_options [c])) = [Opened 1]
  /\ filter is_Opened (trace_of (main (with_disable_auto_reconnect no_options) [c])) = [].
Proof. vm_compute. split; reflexivity. Qed.

(* ================================================================== *)
(** ** Disconnecting *)
(* ================================================================== *)

(** C10, as amended. [disconnect] without a stored websocket performs no
    operation, raises nothing and returns [True]; with a stored websocket it
    closes it, and returns [True] when [close] returns; an exception of
    [close] leaves [disconnect] in place of a value. The object is never
    changed. *)
Theorem disconnect_outcome (close_result : option exc) (self : RipeRisStreamer) :
  disconnect close_result self
  = match _ws self with
    | None => (Return true, self, [])
    | Some ws =>
        match close_result with
        | None => (Return true, self, [Close ws])
        | Some e => (Raise e, self, [Close ws])
        end
    end.
Proof.
  unfold disconnect, bind, get_self. simpl.
  destruct (_ws self) as [ws|]; [|reflexivity].
  destruct close_result; reflexivity.
Qed.

(** C10, the claim as it is stated fails: once a websocket is stored, a
    [close] that is cancelled, or that raises, makes [disconnect] raise; it
    does not return [True]. [handle_shutdown] catches the [ConnectionError]
    that [disconnect] may raise. *)
Lemma disconnect_propagates_close_error :
  disconnect (Some CancelledError) (bound_to 1 (__init__ no_options))
  = (Raise CancelledError, bound_to 1 (__init__ no_options), [Close 1])
  /\ disconnect (Some (ConnectionError "closed")) (bound_to 1 (__init__ no_options))
     = (Raise (ConnectionError "closed"), bound_to 1 (__init__ no_options), [Close 1])
  /\ handle_shutdown (Some (ConnectionError "closed")) 0 (bound_to 1 (__init__ no_options))
     = (Return tt, bound_to 1 (__init__ no_options),
        [Print "Disconnecting..."; Close 1;
         Print "Error during disconnect: closed"; Print "Shutting down..."]).
Proof. vm_compute. repeat split. Qed.

(* ================================================================== *)
(** ** Further properties: the validators *)
(* ================================================================== *)

Section SplitJoin.

Lemma split_length (sep : ascii) (s : string) :
  length (PyStr.split sep s) = S (count_char sep s).
Proof.
  induction s as [|c r IH]; simpl; [reflexivity|].
  destruct (Ascii.eqb c sep); simpl.
  - rewrite IH. reflexivity.
  - destruct (PyStr.split sep r); simpl in *; [discriminate IH | exact IH].
Qed.

Lemma tokens_length (value : string) :
  length (tokens value) = S (count_char "," value).
Proof. unfold tokens. rewrite length_map. apply split_length. Qed.

Lemma split_app_sep (sep : ascii) (x s : string) :
  PyStr.contains sep x = false ->
  PyStr.split sep (x ++ String sep s)%string = x :: PyStr.split sep s.
Proof.
  induction x as [|c r IH]; simpl; intros H.
  - rewrite Ascii.eqb_refl. reflexivity.
  - apply orb_false_iff in H as [Hc Hr].
    rewrite Ascii.eqb_sym, Hc, (IH Hr). reflexivity.
Qed.

(** Splitting undoes joining, for pieces that hold no separator. *)
Lemma split_join (sep : ascii) (l : list string) :
  l <> [] -> Forall (fun t => PyStr.contains sep t = false) l ->
  PyStr.split sep (PyStr.join (String sep EmptyString) l) = l.
Proof.
  induction l as [|x [|y r] IH]; intros Hne Hall; [congruence| |].
  - simpl. inversion Hall; subst. apply split_without_sep. assumption.
  - inversion Hall as [|? ? Hx Hr]; subst.
    change (PyStr.join (String sep EmptyString) (x :: y :: r))
      with (x ++ String sep (PyStr.join (String sep EmptyString) (y :: r)))%string.
    rewrite (split_app_sep _ _ _ Hx), IH; [reflexivity | discriminate | exact Hr].
Qed.

Lemma rstrip_by_idempotent (p : ascii -> bool) (s : string) :
  PyStr.rstrip_by p (PyStr.rstrip_by p s) = PyStr.rstrip_by p s.
Proof.
  induction s as [|a r IH]; simpl; [reflexivity|].
  destruct (PyStr.rstrip_by p r) as [|b r'] eqn:E.
  - destruct (p a) eqn:Pa; simpl; [reflexivity|]. rewrite Pa. reflexivity.
  - change (PyStr.rstrip_by p (String a (String b r')))
      with (match PyStr.rstrip_by p (String b r') with
            | EmptyString => if p a then EmptyString else String a EmptyString
            | String x y => String a (String x y)
            end).
    rewrite IH. reflexivity.
Qed.

Lemma strip_idempotent (s : string) :
  PyStr.strip (PyStr.strip s) = PyStr.strip s.
Proof.
  unfold PyStr.strip at 1.
  assert (H : PyStr.lstrip_by PyStr.isspace (PyStr.strip s) = PyStr.strip s).
  { destruct (PyStr.strip s) as [|c r] eqn:E; [reflexivity|].
    unfold PyStr.strip in E.
    destruct (rstrip_by_head _ _ _ _ E) as (r' & E').
    simpl. rewrite (lstrip_by_head _ _ _ _ E'). reflexivity. }
  rewrite H. unfold PyStr.strip. apply rstrip_by_idempotent.
Qed.

(** The tokens of the comma-joined tokens are the tokens. *)
Lemma tokens_join_tokens (value : string) :
  tokens (PyStr.join "," (tokens value)) = tokens value.
Proof.
  unfold tokens at 1.
  rewrite (split_join "," (tokens value) (tokens_not_nil value) (tokens_without_comma value)).
  unfold tokens. rewrite map_map. apply map_ext. intros s. apply strip_idempotent.
Qed.

End SplitJoin.

Section ValidatorShapes.
Context {py : Interpreter} {ipaddress : Ipaddress}.

(** X1. Each of the three list validators returns, when it accepts, exactly
    one entry per comma-separated piece of its input, empty pieces
    included: one more entry than the input has commas, so never an empty
    list. *)
Theorem validators_one_entry_per_piece (value : string) :
  (forall l, validate_rrc value = Ok l -> length l = S (count_char "," value))
  /\ (forall l, validate_aspath value = Ok l -> length l = S (count_char "," value))
  /\ (forall l, validate_prefix value = Ok l -> length l = S (count_char "," value)).
Proof.
  repeat split; intros l H.
  - apply validate_rrc_returns_tokens in H. subst l. apply tokens_length.
  - apply validate_aspath_returns_tokens in H. subst l. apply tokens_length.
  - apply validate_prefix_returns_tokens in H. subst l. apply tokens_length.
Qed.

(** X2. What a list validator returns is stable: the accepted list, joined
    with commas and validated again, is accepted and gives the same list
    (the trimming and splitting are idempotent). *)
Theorem validated_lists_revalidate (value : string) :
  (forall l, validate_rrc value = Ok l -> validate_rrc (PyStr.join "," l) = Ok l)
  /\ (forall l, validate_aspath value = Ok l -> validate_aspath (PyStr.join "," l) = Ok l)
  /\ (forall l, validate_prefix value = Ok l -> validate_prefix (PyStr.join "," l) = Ok l).
Proof.
  repeat split; intros l H.
  - pose proof (validate_rrc_returns_tokens _ _ H) as ->.
    revert H. unfold validate_rrc. fold (tokens value).
    fold (tokens (PyStr.join "," (tokens value))).
    rewrite tokens_join_tokens. trivial.
  - pose proof (validate_aspath_returns_tokens _ _ H) as ->.
    revert H. unfold validate_aspath. fold (tokens value).
    fold (tokens (PyStr.join "," (tokens value))).
    rewrite tokens_join_tokens. trivial.
  - pose proof (validate_prefix_returns_tokens _ _ H) as ->.
    revert H. unfold validate_prefix. fold (tokens value).
    fold (tokens (PyStr.join "," (tokens value))).
    rewrite tokens_join_tokens. trivial.
Qed.

Lemma path_field (args : Namespace) (x : string) (l : list string) :
  filter_aspath args = Some (x :: l) ->
  PyDict.get "path" (ris_params args) = Some (Json.Str (PyStr.join "," (x :: l))).
Proof.
  destruct args as [h t k p a f m lsp r d g]. simpl. intros ->.
  destruct h as [[|? ?]|], t, k as [[|? ?]|], p, f as [[|? ?]|]; reflexivity.
Qed.

(** X3. The "path" field round trip: when [-a value] was accepted as the
    list [l], the payload's "path" is one string that splits at its commas
    into exactly [l], and that [validate_aspath] accepts again as [l]. *)
Theorem path_field_round_trip (args : Namespace) (value : string) (l : list string) :
  validate_aspath value = Ok l ->
  filter_aspath args = Some l ->
  exists path,
    PyDict.get "path" (ris_params args) = Some (Json.Str path)
    /\ PyStr.split "," path = l
    /\ validate_aspath path = Ok l.
Proof.
  intros Hv Ha. exists (PyStr.join "," l).
  pose proof (validate_aspath_returns_tokens _ _ Hv) as Hl.
  split; [|split].
  - destruct l as [|x l']; [exfalso; symmetry in Hl; exact (tokens_not_nil _ Hl)|].
    apply path_field, Ha.
  - subst l. apply split_join; [apply tokens_not_nil | apply tokens_without_comma].
  - subst l. revert Hv. unfold validate_aspath. fold (tokens value).
    fold (tokens (PyStr.join "," (tokens value))).
    rewrite tokens_join_tokens. trivial.
Qed.

End ValidatorShapes.

Lemma path_field_round_trip_witness :
  @validate_aspath cpython_default "^123, 456 ,789$" = Ok ["^123"; "456"; "789$"]
  /\ exists path,
       PyDict.get "path" (ris_params (with_aspath no_options ["^123"; "456"; "789$"]))
       = Some (Json.Str path)
       /\ PyStr.split "," path = ["^123"; "456"; "789$"]
       /\ @validate_aspath cpython_default path = Ok ["^123"; "456"; "789$"].
Proof.
  split; [reflexivity|].
  exact (@path_field_round_trip cpython_default
           (with_aspath no_options ["^123"; "456"; "789$"])
           "^123, 456 ,789$" ["^123"; "456"; "789$"] eq_refl eq_refl).
Defined.

Section AnchoredNumbers.
Context {py : Interpreter}.

Lemma lstrip_by_app_all (p : ascii -> bool) (pre s : string) :
  string_forallb p pre = true ->
  PyStr.lstrip_by p (pre ++ s)%string = PyStr.lstrip_by p s.
Proof.
  induction pre as [|c r IH]; simpl; intros H; [reflexivity|].
  apply andb_true_iff in H as [Hc Hr]. rewrite Hc. exact (IH Hr).
Qed.

Lemma rstrip_by_all (p : ascii -> bool) (s : string) :
  string_forallb p s = true -> PyStr.rstrip_by p s = EmptyString.
Proof.
  induction s as [|c r IH]; simpl; intros H; [reflexivity|].
  apply andb_true_iff in H as [Hc Hr]. rewrite (IH Hr), Hc. reflexivity.
Qed.

Lemma rstrip_by_app_all (p : ascii -> bool) (s post : string) :
  string_forallb p post = true ->
  PyStr.rstrip_by p (s ++ post)%string = PyStr.rstrip_by p s.
Proof.
  intros H. induction s as [|c r IH]; simpl.
  - apply rstrip_by_all, H.
  - rewrite IH. reflexivity.
Qed.

Lemma rstrip_by_none (p : ascii -> bool) (s : string) :
  string_forallb (fun c => negb (p c)) s = true -> PyStr.rstrip_by p s = s.
Proof.
  induction s as [|c r IH]; simpl; intros H; [reflexivity|].
  apply andb_true_iff in H as [Hc Hr]. rewrite (IH Hr).
  apply negb_true_iff in Hc. rewrite Hc. destruct r; reflexivity.
Qed.

Lemma lstrip_by_none (p : ascii -> bool) (s : string) :
  string_forallb (fun c => negb (p c)) s = true -> PyStr.lstrip_by p s = s.
Proof.
  destruct s as [|c r]; simpl; intros H; [reflexivity|].
  apply andb_true_iff in H as [Hc _]. apply negb_true_iff in Hc.
  rewrite Hc. reflexivity.
Qed.

Lemma digits_without_anchors (digits : string) :
  string_forallb PyStr.isdigit digits = true ->
  string_forallb (fun c => negb (PyStr.contains c "^$")) digits = true.
Proof.
  induction digits as [|c r IH]; cbn [string_forallb]; intros H; [reflexivity|].
  apply andb_true_iff in H as [Hc Hr].
  destruct (digit_is_plain c Hc) as (_ & _ & _ & _ & Hx).
  rewrite Hx, (IH Hr). reflexivity.
Qed.

Lemma string_forallb_app (p : ascii -> bool) (a b : string) :
  string_forallb p (a ++ b)%string = string_forallb p a && string_forallb p b.
Proof.
  induction a as [|c r IH]; simpl; [reflexivity|].
  rewrite IH, andb_assoc. reflexivity.
Qed.

Lemma string_forallb_weaken (p q : ascii -> bool) (s : string) :
  (forall c, p c = true -> q c = true) ->
  string_forallb p s = true -> string_forallb q s = true.
Proof.
  intros Hpq. induction s as [|c r IH]; simpl; intros H; [reflexivity|].
  apply andb_true_iff in H as [Hc Hr]. rewrite (Hpq c Hc), (IH Hr). reflexivity.
Qed.

Lemma digit_or_anchor_is_plain (c : ascii) :
  PyStr.isdigit c || PyStr.contains c "^$" = true ->
  negb (PyStr.isspace c) = true /\ Ascii.eqb "," c = false.
Proof.
  destruct c as [[] [] [] [] [] [] [] []]; intros H;
    first [discriminate H | split; reflexivity].
Qed.

(** A string of digits and anchor characters is one token, equal to
    itself. *)
Lemma tokens_of_plain_expression (path : string) :
  string_forallb (fun c => PyStr.isdigit c || PyStr.contains c "^$") path = true ->
  tokens path = [path].
Proof.
  intros H. unfold tokens.
  assert (Hc : PyStr.contains "," path = false).
  { induction path as [|c r IH]; [reflexivity|]. cbn [string_forallb] in H.
    apply andb_true_iff in H as [Hc Hr]. cbn [PyStr.contains].
    rewrite (proj2 (digit_or_anchor_is_plain c Hc)), (IH Hr). reflexivity. }
  rewrite (split_without_sep _ _ Hc). cbn [map]. f_equal.
  assert (Hs : string_forallb (fun c => negb (PyStr.isspace c)) path = true).
  { revert H. apply string_forallb_weaken. intros c Hc'.
    exact (proj1 (digit_or_anchor_is_plain c Hc')). }
  unfold PyStr.strip. rewrite (lstrip_by_none _ _ Hs). apply rstrip_by_none, Hs.
Qed.

(** X4. An expression that is a plain decimal number (at most 640 digits)
    between any anchor characters, "^" or "$" in any number on either
    side, is accepted by [validate_aspath], and returned as given, exactly
    when the number is at most 4294967295; otherwise it is rejected with
    the diagnostic that quotes it. *)
Theorem anchored_number_accepted_iff (before digits after : string) :
  anchors_only before = true -> anchors_only after = true ->
  digits <> EmptyString -> string_forallb PyStr.isdigit digits = true ->
  String.length digits <= 640 ->
  let path := (before ++ digits ++ after)%string in
  (validate_aspath path = Ok [path] <-> (decimal 0 digits <= 4294967295)%Z)
  /\ (validate_aspath path = ArgumentTypeError (aspath_message path)
      <-> (decimal 0 digits > 4294967295)%Z).
Proof.
  intros Hb Ha Hne Hd Hlen path.
  pose proof (digits_without_anchors digits Hd) as Hn.
  assert (E : PyStr.strip_chars "^$" path = digits).
  { unfold path, PyStr.strip_chars. rewrite (lstrip_by_app_all _ _ _ Hb).
    assert (Hl : PyStr.lstrip_by (fun c => PyStr.contains c "^$") (digits ++ after)%string
                 = (digits ++ after)%string).
    { destruct digits as [|c r]; [congruence|].
      cbn [string_forallb] in Hn. apply andb_true_iff in Hn as [Hc _].
      apply negb_true_iff in Hc.
      cbn [append PyStr.lstrip_by]. rewrite Hc. reflexivity. }
    rewrite Hl, (rstrip_by_app_all _ _ _ Ha). apply rstrip_by_none, Hn. }
  assert (E' : PyStr.strip_chars "^$" digits = digits).
  { unfold PyStr.strip_chars. rewrite (lstrip_by_none _ _ Hn). apply rstrip_by_none, Hn. }
  assert (Hacc : aspath_accepted path <-> (decimal 0 digits <= 4294967295)%Z).
  { rewrite <- (plain_decimal_expression digits Hne Hd Hlen).
    unfold aspath_accepted. rewrite E, E'. reflexivity. }
  assert (Htok : tokens path = [path]).
  { apply tokens_of_plain_expression. unfold path. rewrite !string_forallb_app.
    unfold anchors_only in Hb, Ha.
    rewrite (string_forallb_weaken _ _ before (fun c H => eq_trans (f_equal _ H) (orb_true_r _)) Hb).
    rewrite (string_forallb_weaken _ _ after (fun c H => eq_trans (f_equal _ H) (orb_true_r _)) Ha).
    rewrite (string_forallb_weaken _ _ digits (fun c H => f_equal (fun b => b || _) H) Hd).
    reflexivity. }
  pose proof (tokens_without_comma path) as Hcomma. rewrite Htok in Hcomma.
  unfold validate_aspath. fold (tokens path). rewrite Htok.
  split.
  - rewrite (validate_aspath_loop_ok [path] [] [path] Hcomma), <- Hacc.
    split; [intros [H _]; inversion H; assumption | intros H; split; [constructor; [exact H | constructor] | reflexivity]].
  - split.
    + intros H. destruct (Z.le_gt_cases (decimal 0 digits) 4294967295) as [Hle|Hgt]; [|lia].
      apply Hacc in Hle.
      assert (Hok : validate_aspath_loop [path] [] = Ok [path])
        by (apply (validate_aspath_loop_ok [path] [] [path] Hcomma);
            split; [constructor; [exact Hle | constructor] | reflexivity]).
      rewrite Hok in H. discriminate.
    + intros Hgt. apply (validate_aspath_loop_first [] [] [] path Hcomma); [constructor|].
      intros Hx. apply Hacc in Hx. lia.
Qed.

End AnchoredNumbers.

Lemma anchored_number_accepted_iff_witness :
  (@validate_aspath cpython_default "^4294967295$" = Ok ["^4294967295$"]
   <-> (decimal 0 "4294967295" <= 4294967295)%Z)
  /\ (@validate_aspath cpython_default "$^4294967296$$"
      = ArgumentTypeError (aspath_message "$^4294967296$$")
      <-> (decimal 0 "4294967296" > 4294967295)%Z).
Proof.
  split.
  - apply (@anchored_number_accepted_iff cpython_default "^" "4294967295" "$");
      try reflexivity; [discriminate | simpl; lia].
  - apply (@anchored_number_accepted_iff cpython_default "$^" "4294967296" "$$");
      try reflexivity; [discriminate | simpl; lia].
Defined.

(* ================================================================== *)
(** ** Further properties: streaming, the run loop and shutdown *)
(* ================================================================== *)

Section StreamingFacts.

Lemma reception_trace_received (ws : WebSocket) (arrivals : list arrival) :
  received (reception_trace ws arrivals) = map message (taken arrivals)
  /\ printed (reception_trace ws arrivals) = flat_map arrival_lines (taken arrivals)
  /\ filter is_Close (reception_trace ws arrivals) = []
  /\ filter is_Connect (reception_trace ws arrivals) = []
  /\ Forall unverified_connect (reception_trace ws arrivals).
Proof.
  induction arrivals as [|a rest (IH1 & IH2 & IH3 & IH4 & IH5)];
    [repeat split; constructor|].
  cbn [reception_trace taken]. unfold received, printed, arrival_lines in *.
  destruct (arrival_exception a) eqn:Ha;
    cbn [flat_map app map filter is_Close is_Connect]; rewrite ?Ha;
    cbn [app]; rewrite ?IH1, ?IH2, ?IH3, ?IH4;
    repeat split; repeat constructor; exact IH5.
Qed.

(** When the handling of no message raises, every message is taken and has
    its line. *)
Lemma taken_all (arrivals : list arrival) :
  reception_exception arrivals = None ->
  taken arrivals = arrivals
  /\ flat_map arrival_lines arrivals = map arrival_line arrivals.
Proof.
  induction arrivals as [|a rest IH]; [split; reflexivity|].
  cbn [reception_exception taken flat_map map]. unfold arrival_lines at 1.
  destruct (arrival_exception a); [discriminate|].
  intros H. destruct (IH H) as [-> ->]. split; reflexivity.
Qed.

(** The operations of a call whose connection opens, the payload named. *)
Lemma streaming_trace_shape (c : connection) (self : RipeRisStreamer) :
  exists payload,
    streaming_trace c self
    = ([ Log "Creating websocket connection..." [];
         Connect uri (_sslcontext self);
         Opened (conn_ws c);
         Log "Sending RIS parameters..." [];
         Log "RIS parameters: %s " [payload];
         Send (conn_ws c) payload ]
       ++ match send_result c, listening_print c with
          | None, None =>
              [ Print "Listening..."; Log "Starting the reception loop..." [] ]
              ++ reception_trace (conn_ws c) (incoming c)
          | _, _ => []
          end
       ++ [ Close (conn_ws c) ])%list.
Proof. eexists. reflexivity. Qed.

(** X5. Once the connection is open, the subscription sent and
    "Listening..." printed, [start_streaming] receives the arriving
    messages in order, up to and including the first one whose handling
    raises, and prints one line for every message handled: the message,
    or the error line when [print(message)] raised [ValueError]. A
    [ValueError] of [print(message)] alone does not end the loop; an
    exception of the handler's own [print], or any other exception of
    [print(message)], does. When no handling raises, every message is
    received and has its line, however the stream ends. If the connection
    does not open, the send fails or "Listening..." cannot be printed,
    nothing is received. *)
Theorem every_message_received_and_printed (c : connection) (self : RipeRisStreamer) :
  let t := trace_of (start_streaming c self) in
  match connect_result c, send_result c, listening_print c with
  | None, None, None =>
      received t = map message (taken (incoming c))
      /\ printed t = "Listening..." :: flat_map arrival_lines (taken (incoming c))
      /\ (reception_exception (incoming c) = None ->
          received t = map message (incoming c)
          /\ printed t = "Listening..." :: map arrival_line (incoming c))
  | _, _, _ => received t = [] /\ printed t = []
  end.
Proof.
  cbv zeta. rewrite start_streaming_eq. unfold streamed_trace.
  destruct (streaming_trace_shape c self) as (payload & E).
  destruct (reception_trace_received (conn_ws c) (incoming c)) as (R1 & R2 & _).
  destruct (connect_result c) as [e|]; unfold trace_of; cbn [snd].
  - destruct (send_result c), (listening_print c); split; reflexivity.
  - rewrite E. clear E.
    destruct (send_result c) as [e|]; [destruct (listening_print c); split; reflexivity|].
    destruct (listening_print c) as [e|]; [split; reflexivity|].
    assert (H : received
                  ([Log "Creating websocket connection..." [];
                    Connect uri (_sslcontext self); Opened (conn_ws c);
                    Log "Sending RIS parameters..." [];
                    Log "RIS parameters: %s " [payload]; Send (conn_ws c) payload]
                   ++ ([Print "Listening..."; Log "Starting the reception loop..." []]
                       ++ reception_trace (conn_ws c) (incoming c))
                   ++ [Close (conn_ws c)])%list
                = map message (taken (incoming c))
                /\ printed
                     ([Log "Creating websocket connection..." [];
                       Connect uri (_sslcontext self); Opened (conn_ws c);
                       Log "Sending RIS parameters..." [];
                       Log "RIS parameters: %s " [payload]; Send (conn_ws c) payload]
                      ++ ([Print "Listening..."; Log "Starting the reception loop..." []]
                          ++ reception_trace (conn_ws c) (incoming c))
                      ++ [Close (conn_ws c)])%list
                   = "Listening..." :: flat_map arrival_lines (taken (incoming c))).
    { unfold received, printed in *. cbn [app flat_map].
      rewrite !flat_map_app, R1, R2. cbn [flat_map app].
      rewrite !app_nil_r. split; reflexivity. }
    destruct H as [H1 H2]. split; [exact H1 | split; [exact H2|]].
    intros Hnone. destruct (taken_all _ Hnone) as [Ht Hl].
    rewrite H1, H2, Ht, Hl. split; reflexivity.
Qed.

(** X6. [start_streaming] ends with the first exception among [connect],
    [send], [print("Listening...")], the handling of a message (an
    exception of [print(message)] that is no [ValueError], or of the
    handler's own [print]) and the message iterator, and returns only if
    none of them raises. A connection that was opened is closed exactly
    once, as the last operation, whatever happened in between; a
    connection that did not open is never closed. *)
Theorem connection_closed_exactly_once (c : connection) (self : RipeRisStreamer) :
  let t := trace_of (start_streaming c self) in
  outcome_of (start_streaming c self)
  = match streaming_exception c with
    | None => Return tt
    | Some e => Raise e
    end
  /\ match connect_result c with
     | None => exists before,
                 t = (before ++ [Close (conn_ws c)])%list
                 /\ filter is_Close before = []
     | Some _ => filter is_Close t = []
     end.
Proof.
  cbv zeta. rewrite start_streaming_eq. unfold streamed_trace.
  destruct (streaming_trace_shape c self) as (payload & E).
  destruct (reception_trace_received (conn_ws c) (incoming c)) as (_ & _ & R3 & _).
  unfold outcome_of, trace_of; cbn [fst snd]. split; [reflexivity|].
  destruct (connect_result c) as [e|]; [reflexivity|].
  rewrite E. clear E. rewrite app_assoc. eexists. split; [reflexivity|].
  rewrite filter_app.
  destruct (send_result c) as [e|]; [destruct (listening_print c); reflexivity|].
  destruct (listening_print c) as [e|]; [reflexivity|].
  rewrite filter_app, R3. reflexivity.
Qed.

(** X7. [start_streaming] stores the websocket in [self._ws] as soon as the
    connection opens and never clears it, not even after it closed the
    connection; nothing else of the object changes. A [disconnect] that
    follows therefore closes that same websocket once more; if the
    connection did not open, [disconnect] acts as it would have before. *)
Theorem websocket_handle_outlives_connection
        (c : connection) (close_result : option exc) (self : RipeRisStreamer) :
  let after := state_of (start_streaming c self) in
  _options after = _options self
  /\ _sslcontext after = _sslcontext self
  /\ _ws after = match connect_result c with
                 | None => Some (conn_ws c)
                 | Some _ => _ws self
                 end
  /\ trace_of (disconnect close_result after)
     = match connect_result c with
       | None => [Close (conn_ws c)]
       | Some _ => trace_of (disconnect close_result self)
       end.
Proof.
  cbv zeta. rewrite start_streaming_eq. unfold streamed_state.
  destruct (connect_result c) as [e|]; unfold state_of; cbn [fst snd].
  - repeat split.
  - repeat split. destruct close_result; reflexivity.
Qed.


End StreamingFacts.

Section RunLoopFacts.

Lemma streamed_trace_connects (c : connection) (self : RipeRisStreamer) :
  length (filter is_Connect (streamed_trace c self)) = 1
  /\ Forall (fun e => match e with
                      | Connect u ssl => u = uri /\ ssl = _sslcontext self
                      | _ => True
                      end) (streamed_trace c self).
Proof.
  unfold streamed_trace. destruct (connect_result c) as [e|].
  - split; [reflexivity | repeat constructor].
  - destruct (streaming_trace_shape c self) as (payload & ->).
    destruct (reception_trace_received (conn_ws c) (incoming c))
      as (_ & _ & _ & R1 & _).
    assert (R2 : Forall (fun e => match e with
                                  | Connect u ssl => u = uri /\ ssl = _sslcontext self
                                  | _ => True
                                  end) (reception_trace (conn_ws c) (incoming c))).
    { clear R1. induction (incoming c) as [|a rest IH]; [constructor|].
      cbn [reception_trace]. destruct (arrival_exception a); repeat constructor.
      exact IH. }
    split.
    + rewrite !filter_app.
      destruct (send_result c); [destruct (listening_print c); reflexivity|].
      destruct (listening_print c); [reflexivity|].
      rewrite filter_app, R1. reflexivity.
    + repeat (apply Forall_app; split); repeat constructor.
      destruct (send_result c); [destruct (listening_print c); constructor|].
      destruct (listening_print c); [constructor|].
      repeat constructor. exact R2.
Qed.

(** X9. With auto-reconnect left on, the loop of [main] never gives up on
    its own: as long as every call of [start_streaming] ends normally or
    with a [ConnectionError] that the handler of [main] manages to print,
    refused connections included, it attempts each connection on offer,
    one after the other, and is still asking for the next one. Any other
    exception of a call, those of its [print] calls included, is none of
    these cases. *)
Theorem main_keeps_reconnecting (connections : list connection) (self : RipeRisStreamer) :
  disable_auto_reconnect (_options self) = false ->
  forallb recoverable connections = true ->
  outcome_of (main_loop connections self) = Running
  /\ length (filter is_Connect (trace_of (main_loop connections self)))
     = length connections.
Proof.
  revert self. induction connections as [|c rest IH]; intros self Hflag Hrec.
  - simpl. rewrite Hflag. split; reflexivity.
  - cbn [forallb] in Hrec. apply andb_true_iff in Hrec as [Hc Hrest].
    rewrite (main_loop_turn c rest self Hflag). cbv zeta.
    destruct (streamed_trace_connects c self) as [Ht _].
    destruct (streamed_state_options c self) as [Ho _].
    rewrite <- Ho in Hflag.
    destruct (IH _ Hflag Hrest) as [I1 I2].
    unfold recoverable in Hc.
    destruct (streaming_exception c) as [[|msg|msg|name]|]; try discriminate;
      [destruct (error_print c); try discriminate|];
      unfold outcome_of, trace_of in *; cbn [fst snd length];
      (split; [exact I1|]); rewrite filter_app, length_app, Ht;
      cbn [filter is_Connect length]; rewrite I2; reflexivity.
Qed.

(** X10. The loop of [main] is left in two ways only. [main] returns only
    if auto-reconnect was disabled, a call of [start_streaming] was
    cancelled, or the [print] of the [ConnectionError] handler was
    cancelled. An exception leaves [main] only if a call of
    [start_streaming] ended with it, be it an exception of one of its
    [print] calls, and it is neither a cancellation nor a
    [ConnectionError], or if the [print] of the [ConnectionError] handler
    raised it; it is never a cancellation. No normal end of a stream ends
    the loop, and no [ConnectionError] of [start_streaming] whose line is
    printed. *)
Theorem main_ends_only_by_cancellation (connections : list connection)
        (self : RipeRisStreamer) :
  (outcome_of (main_loop connections self) = Exited ->
   disable_auto_reconnect (_options self) = true
   \/ exists c, In c connections
                /\ (streaming_exception c = Some CancelledError
                    \/ (exists msg, streaming_exception c = Some (ConnectionError msg))
                       /\ error_print c = Some CancelledError))
  /\ (forall e, outcome_of (main_loop connections self) = Propagated e ->
        (exists c, In c connections
                   /\ (streaming_exception c = Some e
                       /\ (forall msg, e <> ConnectionError msg)
                       \/ (exists msg, streaming_exception c = Some (ConnectionError msg))
                          /\ error_print c = Some e))
        /\ e <> CancelledError).
Proof.
  revert self. induction connections as [|c rest IH]; intros self;
    destruct (disable_auto_reconnect (_options self)) eqn:Hflag.
  - split; [left; reflexivity|]. simpl. rewrite Hflag. discriminate.
  - simpl. rewrite Hflag. split; [discriminate | discriminate].
  - split; [left; reflexivity|]. rewrite main_loop_cons, Hflag. discriminate.
  - rewrite (main_loop_turn c rest self Hflag). cbv zeta.
    destruct (streamed_state_options c self) as [Ho _]. rewrite <- Ho in Hflag.
    destruct (IH (streamed_state c self)) as [I1 I2]. rewrite Hflag in I1.
    clear IH Ho Hflag. revert I1 I2.
    generalize (main_loop rest (streamed_state c self)).
    generalize (streamed_state c self) (streamed_trace c self).
    intros s1 t next I1 I2.
    assert (L1 : outcome_of next = Exited ->
                 false = true
                 \/ exists c0, In c0 (c :: rest)
                      /\ (streaming_exception c0 = Some CancelledError
                          \/ (exists msg, streaming_exception c0 = Some (ConnectionError msg))
                             /\ error_print c0 = Some CancelledError)).
    { intros H. destruct (I1 H) as [H'|(c' & Hin & Hc')]; [discriminate|].
      right. exists c'. split; [right; exact Hin | exact Hc']. }
    assert (L2 : forall e, outcome_of next = Propagated e ->
                 (exists c0, In c0 (c :: rest)
                    /\ (streaming_exception c0 = Some e
                        /\ (forall msg, e <> ConnectionError msg)
                        \/ (exists msg, streaming_exception c0 = Some (ConnectionError msg))
                           /\ error_print c0 = Some e))
                 /\ e <> CancelledError).
    { intros e H. destruct (I2 e H) as ((c' & Hin & Hc') & H1).
      split; [|exact H1]. exists c'. split; [right; exact Hin | exact Hc']. }
    clear I1 I2.
    destruct (streaming_exception c) as [[|msg|msg|name]|] eqn:Hc;
      [| destruct (error_print c) as [[|m|m|n]|] eqn:Hp | | |];
      unfold outcome_of; cbn [fst]; split;
      try discriminate; try exact L1; try exact L2.
    + intros _. right. exists c. split; [left; reflexivity | left; exact Hc].
    + intros _. right. exists c. split; [left; reflexivity|].
      right. split; [eexists; exact Hc | exact Hp].
    + intros e [= <-]. split; [|discriminate].
      exists c. split; [left; reflexivity|].
      right. split; [eexists; exact Hc | exact Hp].
    + intros e [= <-]. split; [|discriminate].
      exists c. split; [left; reflexivity|].
      right. split; [eexists; exact Hc | exact Hp].
    + intros e [= <-]. split; [|discriminate].
      exists c. split; [left; reflexivity|].
      right. split; [eexists; exact Hc | exact Hp].
    + intros e [= <-]. split; [|discriminate].
      exists c. split; [left; reflexivity|].
      left. split; [exact Hc | intros; discriminate].
    + intros e [= <-]. split; [|discriminate].
      exists c. split; [left; reflexivity|].
      left. split; [exact Hc | intros; discriminate].
Qed.

(** X14. Every connection attempt of a run of [main] goes to the one fixed
    endpoint and carries the TLS context that [__init__] built, with host
    name checking off and certificate verification off ([CERT_NONE]); no
    reconnect changes this. *)
Theorem every_connect_is_unverified (args : Namespace) (connections : list connection) :
  Forall unverified_connect (trace_of (main args connections)).
Proof.
  unfold main.
  assert (H : forall l s, _sslcontext s = _sslcontext (__init__ args) ->
                Forall unverified_connect (trace_of (main_loop l s))).
  { induction l as [|c rest IH]; intros s Hs;
      destruct (disable_auto_reconnect (_options s)) eqn:Hflag.
    - simpl. rewrite Hflag. constructor.
    - simpl. rewrite Hflag. constructor.
    - rewrite main_loop_cons, Hflag. constructor.
    - rewrite (main_loop_turn c rest s Hflag). cbv zeta.
      destruct (streamed_trace_connects c s) as [_ Ht].
      destruct (streamed_state_options c s) as [_ Hctx].
      rewrite Hs in Hctx. specialize (IH _ Hctx).
      assert (Ht' : Forall unverified_connect (streamed_trace c s)).
      { eapply Forall_impl; [|exact Ht]. intros [] He; try exact I.
        destruct He as [-> ->]. rewrite Hs. repeat split. }
      clear Ht. revert Ht' IH.
      generalize (streamed_trace c s) (main_loop rest (streamed_state c s)).
      intros t next Ht' IH.
      destruct (streaming_exception c) as [[|msg|msg|name]|];
        [| destruct (error_print c) as [[|m|m|n]|] | | |];
        unfold trace_of in *; cbn [snd]; try exact Ht';
        apply Forall_app; split; try exact Ht'; try exact IH.
      constructor; [exact I | exact IH]. }
  apply H. reflexivity.
Qed.

End RunLoopFacts.

Lemma main_keeps_reconnecting_witness :
  let refused := {| conn_ws := 1; connect_result := Some (ConnectionError "refused");
                    send_result := None; listening_print := None; incoming := [];
                    stream_end := None; error_print := None |} in
  let dropped := {| conn_ws := 2; connect_result := None; send_result := None;
                    listening_print := None;
                    incoming := [{| message := "m"; print_result := None;
                                    handler_print_result := None |}];
                    stream_end := Some (ConnectionError "reset");
                    error_print := None |} in
  let ended := {| conn_ws := 3; connect_result := None; send_result := None;
                  listening_print := None; incoming := []; stream_end := None;
                  error_print := None |} in
  outcome_of (main_loop [refused; dropped; ended] (__init__ no_options)) = Running
  /\ length (filter is_Connect
               (trace_of (main_loop [refused; dropped; ended] (__init__ no_options)))) = 3.
Proof.
  cbv zeta. apply main_keeps_reconnecting; reflexivity.
Defined.

(** A message that [print] rejects with a [ValueError], on an output
    stream that is closed by the time the handler prints: the handler's
    own [print] raises, the exception ends the reception loop and
    [start_streaming] after the connection is closed, and leaves [main],
    which has no handler for it. *)
Example handler_print_failure_leaves_main :
  let c := {| conn_ws := 1; connect_result := None; send_result := None;
              listening_print := None;
              incoming := [{| message := "m";
                              print_result := Some (ValueError "bad");
                              handler_print_result
                              := Some (ValueError "I/O operation on closed file.") |};
                           {| message := "n"; print_result := None;
                              handler_print_result := None |}];
              stream_end := None; error_print := None |} in
  outcome_of (start_streaming c (__init__ no_options))
  = Raise (ValueError "I/O operation on closed file.")
  /\ received (trace_of (start_streaming c (__init__ no_options))) = ["m"]
  /\ printed (trace_of (start_streaming c (__init__ no_options))) = ["Listening..."]
  /\ filter is_Close (trace_of (start_streaming c (__init__ no_options))) = [Close 1]
  /\ outcome_of (main no_options [c; c])
     = Propagated (ValueError "I/O operation on closed file.")
  /\ recoverable c = false.
Proof. vm_compute. repeat split. Qed.

(* ================================================================== *)
(** ** Further properties: the payload *)
(* ================================================================== *)

Section PayloadFacts.

Lemma escape_char_printable (c : ascii) :
  string_forallb printable (Json.escape_char c) = true.
Proof. destruct c as [[] [] [] [] [] [] [] []]; vm_compute; reflexivity. Qed.

Lemma quote_printable (s : string) :
  string_forallb printable (Json.quote s) = true.
Proof.
  unfold Json.quote. cbn [string_forallb].
  rewrite string_forallb_app. cbn [string_forallb].
  replace (string_forallb printable (Json.escape s)) with true; [reflexivity|].
  symmetry. induction s as [|c r IH]; [reflexivity|].
  cbn [Json.escape]. rewrite string_forallb_app, escape_char_printable, IH. reflexivity.
Qed.

Lemma join_printable (sep : string) (l : list string) :
  string_forallb printable sep = true ->
  Forall (fun s => string_forallb printable s = true) l ->
  string_forallb printable (PyStr.join sep l) = true.
Proof.
  intros Hsep. induction l as [|x [|y r] IH]; intros H; [reflexivity| |].
  - inversion H; assumption.
  - inversion H as [|? ? Hx Hr]; subst.
    change (PyStr.join sep (x :: y :: r))
      with (x ++ sep ++ PyStr.join sep (y :: r))%string.
    rewrite !string_forallb_app, Hx, Hsep, (IH Hr). reflexivity.
Qed.

Lemma dumps_List (items : list Json.value) :
  Json.dumps (Json.List items)
  = ("[" ++ PyStr.join ", " (map Json.dumps items) ++ "]")%string.
Proof. reflexivity. Qed.

Lemma dumps_Dict (items : list (string * Json.value)) :
  Json.dumps (Json.Dict items)
  = ("{" ++ PyStr.join ", "
              (map (fun kv => match kv with
                              | (k, x) => Json.quote k ++ ": " ++ Json.dumps x
                              end) items) ++ "}")%string.
Proof. reflexivity. Qed.

(** [json.dumps] writes printable ASCII only. *)
Lemma dumps_printable (v : Json.value) :
  string_forallb printable (Json.dumps v) = true.
Proof.
  induction v as [ | b | s | items IH | items IH ] using value_induction.
  - reflexivity.
  - destruct b; reflexivity.
  - apply quote_printable.
  - rewrite dumps_List, !string_forallb_app, join_printable; [reflexivity | reflexivity |].
    apply Forall_map. exact IH.
  - rewrite dumps_Dict, !string_forallb_app, join_printable; [reflexivity | reflexivity |].
    apply Forall_map. eapply Forall_impl; [|exact IH].
    intros [k x] Hx. cbn [snd] in Hx.
    rewrite !string_forallb_app, quote_printable, Hx. reflexivity.
Qed.

(** X12. Whatever characters the options hold, the payload that
    [_get_ris_params] builds consists of printable ASCII characters only
    (SPACE to ~): quotes, backslashes, control and non-ASCII characters
    of the filter values reach the wire escaped. *)
Theorem payload_is_printable_ascii (self : RipeRisStreamer) :
  exists payload,
    _get_ris_params self = (Return payload, self, [])
    /\ string_forallb printable payload = true.
Proof.
  exists (Json.dumps (ris_subscribe (_options self))).
  split; [reflexivity | apply dumps_printable].
Qed.

Lemma autoReconnect_field (args : Namespace) :
  PyDict.get "autoReconnect" (ris_params args)
  = Some (Json.Bool (negb (disable_auto_reconnect args))).
Proof.
  destruct args as [h t k p a f m l r d g].
  destruct h as [[|? ?]|], t, k as [[|? ?]|], p, a as [[|? ?]|], f as [[|? ?]|];
    reflexivity.
Qed.

(** X11. No run of [main] ever sends a subscription with "autoReconnect":
    false. Every payload sent carries "autoReconnect": true, since with the
    flag set the loop sends nothing at all. *)
Theorem auto_reconnect_false_never_sent (args : Namespace) (connections : list connection) :
  Forall (fun e => is_Send e = true ->
                   PyDict.get "autoReconnect" (ris_params args) = Some (Json.Bool true)
                   /\ exists ws, e = Send ws (Json.dumps (ris_subscribe args)))
         (trace_of (main args connections)).
Proof.
  destruct (disable_auto_reconnect args) eqn:Hflag.
  - unfold main. destruct connections; simpl; rewrite Hflag; constructor.
  - pose proof (main_loop_protocol args connections (__init__ args) eq_refl)
      as (_ & _ & Hsend).
    unfold main. eapply Forall_impl; [|exact Hsend].
    intros e He Hs. split; [|exact (He Hs)].
    rewrite autoReconnect_field, Hflag. reflexivity.
Qed.

Lemma NoDup_app_filter {A : Type} (f : A -> bool) (a b : list A) :
  NoDup (a ++ b)%list -> NoDup (a ++ filter f b)%list.
Proof.
  induction a as [|x a IH]; simpl; intros H.
  - apply NoDup_filter, H.
  - inversion H as [|? ? Hx Hr]; subst. constructor; [|exact (IH Hr)].
    intros Hin. apply Hx. apply in_app_or in Hin as [Hin|Hin]; apply in_or_app.
    + left; exact Hin.
    + right. apply filter_In in Hin. exact (proj1 Hin).
Qed.

(** X13. The keys of the payload's data always come in one order: the four
    fixed keys "socketOptions", "moreSpecific", "lessSpecific",
    "autoReconnect", then those of "host", "type", "require", "peer",
    "path", "prefix" that are present, in this order; no key occurs
    twice. *)
Theorem payload_keys_in_order (args : Namespace) :
  map fst (ris_params args)
  = (fixed_keys ++ filter (fun k => PyDict.mem k (ris_params args)) optional_keys)%list
  /\ NoDup (map fst (ris_params args)).
Proof.
  assert (E : map fst (ris_params args)
              = (fixed_keys
                 ++ filter (fun k => PyDict.mem k (ris_params args)) optional_keys)%list).
  { destruct args as [h t k p a f m l r d g].
    destruct h as [[|? ?]|], t, k as [[|? ?]|], p, a as [[|? ?]|], f as [[|? ?]|];
      reflexivity. }
  split; [exact E|]. rewrite E. apply NoDup_app_filter.
  unfold fixed_keys, optional_keys. cbn [app].
  repeat (constructor; [cbn [In]; intuition discriminate|]). constructor.
Qed.

End PayloadFacts.
